(** * SublimeFixWindowTitle: the title computation and window renaming of
    [set_window_title.py], embedded in Rocq.

    The plugin is one event listener.  Its pure part computes two strings
    from a view: the title the editor shows by itself ("official") and the
    title the user asked for ("new").  Its stateful part hands both to a
    platform backend that retitles the window.

    Python strings are sequences of code points, so they are modelled as
    lists of [N]; [len] is [length].  Library functions the plugin calls
    ([os.path], [str.replace], [str.format], the UTF-16 codec and the three
    user32 entry points) are modelled next to the plugin code. *)

From stdpp Require Import base gmap list strings.
From Stdlib Require Import NArith ZArith Lia.

Set Default Proof Using "Type".
Local Open Scope Z_scope.
Local Open Scope nat_scope.

(** ** Python values, exceptions and strings *)

Module Py.

Definition str := list N.

(** An ASCII literal as a Python string. *)
Definition lit (s : string) : str :=
  (λ a, Ascii.N_of_ascii a) <$> String.list_ascii_of_string s.

Inductive exn : Set :=
  | AttributeError | TypeError | KeyError | IndexError | ValueError
  | UnboundLocalError | UnicodeEncodeError | UnicodeDecodeError
  | AssertionError.

Inductive result (A : Type) : Type :=
  | Ok (a : A)
  | Raise (e : exn).
Arguments Ok {A} a.
Arguments Raise {A} e.

Definition bind {A B} (c : result A) (k : A → result B) : result B :=
  match c with
  | Ok a => k a
  | Raise e => Raise e
  end.

(** The values a settings file or a host query hands to the plugin: [None],
    a boolean or a string.  (JSON numbers, lists and objects are left out.) *)
Inductive val : Type :=
  | PNone
  | PBool (b : bool)
  | PStr (s : str).

(** [bool(s)] for a string. *)
Definition nonempty (s : str) : bool :=
  match s with [] => false | _ :: _ => true end.

(** [bool(v)]. *)
Definition truth (v : val) : bool :=
  match v with
  | PNone => false
  | PBool b => b
  | PStr s => nonempty s
  end.

(** [str(v)]. *)
Definition to_str (v : val) : str :=
  match v with
  | PNone => lit "None"
  | PBool true => lit "True"
  | PBool false => lit "False"
  | PStr s => s
  end.

(** [v == s] for a string constant [s]. *)
Definition eq_lit (v : val) (s : str) : bool :=
  match v with
  | PStr t => bool_decide (t = s)
  | _ => false
  end.

(** [v in (s1, s2, ...)] for a tuple of string constants. *)
Definition in_tuple (v : val) (t : list str) : bool :=
  existsb (eq_lit v) t.

(** [s.startswith(p)]. *)
Fixpoint startswith (s p : str) : bool :=
  match p, s with
  | [], _ => true
  | _ :: _, [] => false
  | b :: p', a :: s' => N.eqb a b && startswith s' p'
  end.

(** [s.endswith(c)] for a one-character [c]. *)
Definition endswith_char (s : str) (c : N) : bool :=
  match last s with
  | Some x => N.eqb x c
  | None => false
  end.

(** [p in s]: [p] occurs in [s] as a substring. *)
Fixpoint contains (s p : str) : bool :=
  startswith s p ||
  match s with
  | [] => false
  | _ :: s' => contains s' p
  end.

(** [s.replace(old, new)]: every non-overlapping occurrence, leftmost
    first.  [skip] counts the characters of a match still to be dropped. *)
Fixpoint replace_go (old new : str) (skip : nat) (s : str) : str :=
  match s with
  | [] => []
  | c :: s' =>
      match skip with
      | S k => replace_go old new k s'
      | O =>
          if startswith s old
          then new ++ replace_go old new (length old - 1) s'
          else c :: replace_go old new 0 s'
      end
  end.

Definition replace (s old new : str) : str :=
  match old with
  | [] => new ++ flat_map (λ c, c :: new) s
  | _ :: _ => replace_go old new 0 s
  end.

(** [s.split(c)] for a one-character separator. *)
Fixpoint split (c : N) (s : str) : list str :=
  match s with
  | [] => [[]]
  | x :: s' =>
      if N.eqb x c then [] :: split c s'
      else match split c s' with
           | w :: ws => (x :: w) :: ws
           | [] => [[x]]
           end
  end.

(** [c.join(parts)] for a one-character [c]. *)
Fixpoint join (c : N) (parts : list str) : str :=
  match parts with
  | [] => []
  | [w] => w
  | w :: ws => w ++ c :: join c ws
  end.

(** [s.find(c, i)] and [s.rfind(c)] for a one-character [c]; [-1] when
    [c] does not occur. *)
Fixpoint find_go (c : N) (s : str) (i : Z) : Z :=
  match s with
  | [] => (-1)%Z
  | x :: s' => if N.eqb x c then i else find_go c s' (i + 1)%Z
  end.

Definition find_from (c : N) (s : str) (start : nat) : Z :=
  find_go c (drop start s) (Z.of_nat start).

Fixpoint rfind_go (c : N) (s : str) (i acc : Z) : Z :=
  match s with
  | [] => acc
  | x :: s' => rfind_go c s' (i + 1)%Z (if N.eqb x c then i else acc)
  end.

Definition rfind (c : N) (s : str) : Z := rfind_go c s 0%Z (-1)%Z.

(** [s[i:]] and [s[:i]] for an index [i >= 0]. *)
Definition from (i : Z) (s : str) : str := drop (Z.to_nat i) s.
Definition upto (i : Z) (s : str) : str := take (Z.to_nat i) s.

End Py.

Import Py.
Notation "x ← c ;;; k" := (Py.bind c (λ x, k))
  (at level 20, c at level 100, k at level 200, right associativity,
   only parsing).

(** ** [os.path]

    The plugin calls [os.path.basename], [splitext], [splitdrive], [join]
    and [relpath].  Which module [os.path] is depends on the platform, so the
    plugin code below is written against this interface.  [relpath] raises
    [ValueError] only; [None] stands for it. *)

Record OsPath : Type := {
  path_basename : str → str;
  path_splitext : str → str * str;
  path_splitdrive : str → str * str;
  path_join : str → list str → str;
  path_relpath : str → str → option str
}.

(** [genericpath._splitext(p, sep, altsep, extsep)].  The loop that skips
    leading dots finds a character other than [extsep] between the last
    separator and the last dot. *)
Definition generic_splitext (sep : N) (altsep : option N) (extsep : N)
    (p : str) : str * str :=
  let sepIndex :=
    match altsep with
    | Some a => Z.max (rfind sep p) (rfind a p)
    | None => rfind sep p
    end in
  let dotIndex := rfind extsep p in
  if (sepIndex <? dotIndex)%Z
     && existsb (λ c, negb (N.eqb c extsep))
          (upto (dotIndex - (sepIndex + 1)) (from (sepIndex + 1) p))
  then (upto dotIndex p, from dotIndex p)
  else (p, []).

(** Length of the longest common prefix of two component lists: what
    [len(commonprefix([l1, l2]))] is for two sequences. *)
Fixpoint common_len (l1 l2 : list str) : nat :=
  match l1, l2 with
  | a :: l1', b :: l2' =>
      if bool_decide (a = b) then S (common_len l1' l2') else 0
  | _, _ => 0
  end.

Module Posixpath.

Definition sep : N := 47.      (* "/" *)
Definition extsep : N := 46.   (* "." *)
Definition curdir : str := lit ".".
Definition pardir : str := lit "..".

Definition isabs (s : str) : bool := startswith s [sep].

Definition basename (p : str) : str := from (rfind sep p + 1) p.

Definition splitext (p : str) : str * str :=
  generic_splitext sep None extsep p.

Definition splitdrive (p : str) : str * str := ([], p).

Definition join_step (path b : str) : str :=
  if startswith b [sep] then b
  else if negb (nonempty path) || endswith_char path sep then path ++ b
  else path ++ sep :: b.

Definition join (a : str) (p : list str) : str := foldl join_step a p.

Definition normpath_step (initial_slashes : nat) (new_comps : list str)
    (comp : str) : list str :=
  if bool_decide (comp = []) || bool_decide (comp = curdir) then new_comps
  else if negb (bool_decide (comp = pardir))
          || (Nat.eqb initial_slashes 0 && bool_decide (new_comps = []))
          || (match last new_comps with
              | Some c => bool_decide (c = pardir)
              | None => false
              end)
  then new_comps ++ [comp]
  else match new_comps with
       | [] => new_comps
       | _ :: _ => removelast new_comps
       end.

Definition normpath (path : str) : str :=
  match path with
  | [] => curdir
  | _ :: _ =>
      let initial_slashes :=
        if startswith path [sep] then
          if startswith path [sep; sep] && negb (startswith path [sep; sep; sep])
          then 2 else 1
        else 0 in
      let comps := foldl (normpath_step initial_slashes) [] (split sep path) in
      let path' := replicate initial_slashes sep ++ Py.join sep comps in
      match path' with
      | [] => curdir
      | _ :: _ => path'
      end
  end.

Section Cwd.
(** [os.getcwd()]. *)
Variable cwd : str.

Definition abspath (path : str) : str :=
  normpath (if isabs path then path else join cwd [path]).

Definition relpath (path start : str) : option str :=
  match path with
  | [] => None
  | _ :: _ =>
      let start_list := filter (λ x, x ≠ []) (split sep (abspath start)) in
      let path_list := filter (λ x, x ≠ []) (split sep (abspath path)) in
      let i := common_len start_list path_list in
      let rel_list :=
        replicate (length start_list - i) pardir ++ drop i path_list in
      match rel_list with
      | [] => Some curdir
      | a :: p => Some (join a p)
      end
  end.

Definition module : OsPath :=
  {| path_basename := basename;
     path_splitext := splitext;
     path_splitdrive := splitdrive;
     path_join := join;
     path_relpath := relpath |}.
End Cwd.

End Posixpath.

Module Ntpath.

Definition sep : N := 92.      (* backslash *)
Definition altsep : N := 47.   (* "/" *)
Definition extsep : N := 46.   (* "." *)
Definition colon : N := 58.    (* ":" *)

Definition is_sep (c : N) : bool := N.eqb c sep || N.eqb c altsep.

(** [ntpath.splitdrive]: a drive letter with its colon, or the
    [\\machine\mountpoint] part of a UNC path. *)
Definition splitdrive (p : str) : str * str :=
  if 2 <=? length p then
    let normp := (λ c, if N.eqb c altsep then sep else c) <$> p in
    if bool_decide (take 2 normp = [sep; sep])
       && negb (bool_decide (take 1 (drop 2 normp) = [sep]))
    then
      let index := find_from sep normp 2 in
      if (index =? -1)%Z then ([], p)
      else
        let index2 := find_from sep normp (Z.to_nat (index + 1)) in
        if (index2 =? index + 1)%Z then ([], p)
        else
          let index2 := if (index2 =? -1)%Z then Z.of_nat (length p) else index2 in
          (upto index2 p, from index2 p)
    else if bool_decide (take 1 (drop 1 normp) = [colon])
    then (take 2 p, drop 2 p)
    else ([], p)
  else ([], p).

(** [ntpath.basename(p)] is [split(p)[1]]: what follows the last separator
    of the path without its drive. *)
Definition basename (p : str) : str :=
  let p' := snd (splitdrive p) in
  from (Z.max (rfind sep p') (rfind altsep p') + 1) p'.

Definition splitext (p : str) : str * str :=
  generic_splitext sep (Some altsep) extsep p.

Section Win32.
(** [ntpath.join] and [ntpath.relpath] go through case folding and the
    Win32 call [GetFullPathNameW]; they are taken as given. *)
Variable join : str → list str → str.
Variable relpath : str → str → option str.

Definition module : OsPath :=
  {| path_basename := basename;
     path_splitext := splitext;
     path_splitdrive := splitdrive;
     path_join := join;
     path_relpath := relpath |}.
End Win32.

End Ntpath.

(** ** The [utf16] codec

    [str.encode('utf16')] writes a byte order mark and then little-endian
    code units; [bytes.decode('utf16')] consumes a leading mark of either
    order and otherwise reads little-endian.  Bytes and code units are [N]. *)

Module Utf16.

Definition is_surrogate (c : N) : bool := (N.leb 0xD800 c && N.leb c 0xDFFF)%N.
Definition is_high (u : N) : bool := (N.leb 0xD800 u && N.leb u 0xDBFF)%N.
Definition is_low (u : N) : bool := (N.leb 0xDC00 u && N.leb u 0xDFFF)%N.

Definition high_surrogate (c : N) : N :=
  (0xD800 - N.shiftr 0x10000 10 + N.shiftr c 10)%N.
Definition low_surrogate (c : N) : N := (0xDC00 + N.land c 0x3FF)%N.
Definition join_surrogates (hi lo : N) : N :=
  (0x10000 + N.lor (N.shiftl (N.land hi 0x3FF) 10) (N.land lo 0x3FF))%N.

(** Code units of one code point.  The encoder refuses a surrogate, as
    Python 3.4 and later do. *)
Definition units_of_char (c : N) : option (list N) :=
  if (c <? 0x10000)%N then
    if is_surrogate c then None else Some [c]
  else Some [high_surrogate c; low_surrogate c].

Fixpoint units_of_str (s : str) : option (list N) :=
  match s with
  | [] => Some []
  | c :: s' =>
      match units_of_char c, units_of_str s' with
      | Some us, Some r => Some (us ++ r)
      | _, _ => None
      end
  end.

Definition le_bytes (u : N) : list N := [N.land u 0xFF; N.shiftr u 8].
Definition be_unit (b0 b1 : N) : N := N.lor (N.shiftl b0 8) b1.
Definition le_unit (b0 b1 : N) : N := N.lor (N.shiftl b1 8) b0.

Definition bytes_of_units (us : list N) : list N := flat_map le_bytes us.

(** Pairs of bytes as code units; [None] for an odd number of bytes. *)
Fixpoint units_of_bytes (unit : N → N → N) (bs : list N) : option (list N) :=
  match bs with
  | [] => Some []
  | [_] => None
  | b0 :: b1 :: r => cons (unit b0 b1) <$> units_of_bytes unit r
  end.

Fixpoint str_of_units (us : list N) : option str :=
  match us with
  | [] => Some []
  | u :: r =>
      if is_high u then
        match r with
        | l :: r' =>
            if is_low l then cons (join_surrogates u l) <$> str_of_units r'
            else None
        | [] => None
        end
      else if is_low u then None
      else cons u <$> str_of_units r
  end.

Definition BOM : list N := [0xFF; 0xFE]%N.

Definition encode (s : str) : result (list N) :=
  match units_of_str s with
  | Some us => Ok (BOM ++ bytes_of_units us)
  | None => Raise UnicodeEncodeError
  end.

Definition decode (bs : list N) : result str :=
  let '(unit, body) :=
    match bs with
    | 0xFF%N :: 0xFE%N :: r => (le_unit, r)
    | 0xFE%N :: 0xFF%N :: r => (be_unit, r)
    | _ => (le_unit, bs)
    end in
  match units_of_bytes unit body ≫= str_of_units with
  | Some s => Ok s
  | None => Raise UnicodeDecodeError
  end.

End Utf16.

(** ** user32: the top-level windows and their texts *)

Module User32.

Definition HWND := Z.

(** The top-level windows in the order [EnumWindows] reports them, each
    with its text as 16-bit code units. *)
Definition desktop := list (HWND * list N).

Definition EnumWindows (d : desktop) : list HWND := d.*1.

Definition text (d : desktop) (h : HWND) : list N :=
  match list_find (λ w, w.1 = h) d with
  | Some (_, (_, t)) => t
  | None => []
  end.

Definition GetWindowTextLengthW (d : desktop) (h : HWND) : nat :=
  length (text d h).

(** Fills a buffer of [nMaxCount] code units: the text, cut to leave room
    for the terminator, then zeros.  Returns the buffer and the number of
    units copied. *)
Definition GetWindowTextW (d : desktop) (h : HWND) (nMaxCount : nat)
    : list N * nat :=
  let t := take (nMaxCount - 1) (text d h) in
  (t ++ replicate (nMaxCount - length t) 0%N, length t).

(** The wide string a byte buffer holds: little-endian units up to the
    first zero unit. *)
Fixpoint wide_string (buf : list N) : list N :=
  match buf with
  | b0 :: b1 :: r =>
      let u := Utf16.le_unit b0 b1 in
      if N.eqb u 0 then [] else u :: wide_string r
  | _ => []
  end.

Definition SetWindowTextW (d : desktop) (h : HWND) (buf : list N) : desktop :=
  (λ w : HWND * list N,
     if bool_decide (w.1 = h) then (w.1, wide_string buf) else w) <$> d.

End User32.

(** ** [str.format] with keyword arguments only

    The template is read left to right: literal text, [{{] and [}}] for the
    braces themselves, and replacement fields.  A field whose text is a plain
    keyword is looked up among the keyword arguments.  Everything else a
    field can hold (attribute and index lookups, conversions, format
    specifications, nested fields, numeric names) is left to [tail], which
    receives the template from that field on. *)

Module Format.

Definition kwargs := list (str * val).

Definition lbrace : N := 123.
Definition rbrace : N := 125.

(** ["{"], ["["], ["."], ["!"] and [":"] end the plain part of a field. *)
Definition is_special (c : N) : bool :=
  N.eqb c 123 || N.eqb c 91 || N.eqb c 46 || N.eqb c 33 || N.eqb c 58.

(** An ASCII digit, or a character outside ASCII (which may be a digit). *)
Definition digit_like (c : N) : bool :=
  (N.leb 48 c && N.leb c 57) || N.leb 128 c.

Fixpoint lookup (kw : kwargs) (key : str) : option val :=
  match kw with
  | [] => None
  | (k, v) :: kw' => if bool_decide (k = key) then Some v else lookup kw' key
  end.

Definition emit (out : str) (r : result str) : result str :=
  match r with
  | Ok s => Ok (out ++ s)
  | Raise e => Raise e
  end.

Inductive fstate : Type :=
  | Text                    (* in literal text *)
  | Open                    (* just after a "{" *)
  | Close                   (* just after a "}" in literal text *)
  | Field (name_rev : str). (* inside a field, its text so far reversed *)

Section Format.
Variable tail : kwargs → str → result str.
Variable kw : kwargs.

(** The field [{name}] followed by [rest], whose formatting is [k].  An
    empty name is the positional argument 0, and there is none. *)
Definition field (name rest : str) (k : result str) : result str :=
  match name with
  | [] => Raise IndexError
  | _ :: _ =>
      if forallb digit_like name
      then tail kw (lbrace :: name ++ rbrace :: rest)
      else match lookup kw name with
           | Some v => emit (to_str v) k
           | None => Raise KeyError
           end
  end.

Fixpoint format_go (st : fstate) (s : str) : result str :=
  match s with
  | [] =>
      match st with
      | Text => Ok []
      | _ => Raise ValueError
      end
  | c :: s' =>
      match st with
      | Text =>
          if N.eqb c lbrace then format_go Open s'
          else if N.eqb c rbrace then format_go Close s'
          else emit [c] (format_go Text s')
      | Close =>
          if N.eqb c rbrace then emit [rbrace] (format_go Text s')
          else Raise ValueError
      | Open =>
          if N.eqb c lbrace then emit [lbrace] (format_go Text s')
          else if N.eqb c rbrace then field [] s' (format_go Text s')
          else if is_special c then tail kw (lbrace :: c :: s')
          else format_go (Field [c]) s'
      | Field n =>
          if N.eqb c rbrace then field (rev n) s' (format_go Text s')
          else if is_special c then tail kw (lbrace :: rev n ++ c :: s')
          else format_go (Field (c :: n)) s'
      end
  end.

Definition format (template : str) : result str := format_go Text template.
End Format.

End Format.

(** ** The [Window] class of the Windows variant *)

Module Window.
Import User32.

(** The [title] property. *)
Definition title (d : desktop) (handle : HWND) : result str :=
  let n := GetWindowTextLengthW d handle in
  let '(t, n2) := GetWindowTextW d handle (n + 1) in
  if Nat.eqb n n2
  then Utf16.decode (take (n2 * 2) (Utf16.bytes_of_units t))
  else Raise AssertionError.

(** The setter of [title]: the encoded title in a zero-filled buffer ten
    bytes longer, handed over as a wide string. *)
Definition set_title (d : desktop) (handle : HWND) (title : str)
    : result desktop :=
  b ← Utf16.encode title;;;
  let n := length b in
  let t := b ++ replicate (n + 10 - length b) 0%N in
  Ok (SetWindowTextW d handle t).

(** [Window.all()]. *)
Definition all (d : desktop) : list HWND := EnumWindows d.

End Window.

(** ** The host: editor, operating system and settings *)

Inductive platform : Set := linux | windows | osx.

Record sublime_window : Type := {
  window_id : Z;
  project_file_name : option str;
  folders : list str
}.

Record sublime_view : Type := {
  view_id : Z;
  name : str;
  file_name : option str;
  is_dirty : bool;
  window : option sublime_window
}.

(** The same view after an edit or a save changed its dirty flag. *)
Definition with_dirty (b : bool) (view : sublime_view) : sublime_view :=
  {| view_id := view_id view; name := name view; file_name := file_name view;
     is_dirty := b; window := window view |}.

Record host : Type := {
  PLATFORM : platform;                 (* sublime.platform() *)
  os_path : OsPath;                    (* the os.path of that platform *)
  HOME : option str;                   (* os.environ.get("HOME") *)
  settings : gmap str val;             (* set_window_title.sublime-settings *)
  package : str;                       (* __package__ *)
  popen : str → str;                   (* what os.popen(cmd).read() returns;
                                          what the command does to a window
                                          is not part of [state] *)
  format_tail : Format.kwargs → str → result str
}.

(** [settings.get(key, default)]; [settings.get(key)] has [default = None]. *)
Definition settings_get (h : host) (key : str) (default : val) : val :=
  match settings h !! key with
  | Some v => v
  | None => default
  end.

Definition opt_val (o : option str) : val :=
  match o with
  | Some s => PStr s
  | None => PNone
  end.

(** ** The listener [SetWindowTitle] *)

Module SetWindowTitle.

(** What a handler does to the outside, in the order it happens.  [Rename]
    records that [rename_window] was entered, with its two titles. *)
Inductive effect : Type :=
  | Printed (line : str)
  | Popen (cmd : str)
  | Sleep
  | EnumWindows
  | Rename (official_title new_title : str).

(** The listener object, the [WAS_DIRTY] setting of every view (by view id),
    the top-level windows, and the effects so far (oldest first). *)
Record state : Type := {
  script_path : option str;
  ready : bool;
  window_handle_cache : gmap Z User32.HWND;
  was_dirty : gmap Z bool;
  desktop : User32.desktop;
  log : list effect
}.

Definition emit (e : effect) (st : state) : state :=
  {| script_path := script_path st; ready := ready st;
     window_handle_cache := window_handle_cache st;
     was_dirty := was_dirty st; desktop := desktop st;
     log := log st ++ [e] |}.

Definition set_desktop (d : User32.desktop) (st : state) : state :=
  {| script_path := script_path st; ready := ready st;
     window_handle_cache := window_handle_cache st;
     was_dirty := was_dirty st; desktop := d; log := log st |}.

Definition set_was_dirty (view : Z) (b : bool) (st : state) : state :=
  {| script_path := script_path st; ready := ready st;
     window_handle_cache := window_handle_cache st;
     was_dirty := <[view := b]> (was_dirty st); desktop := desktop st;
     log := log st |}.

Definition set_ready (sp : option str) (st : state) : state :=
  {| script_path := sp; ready := true;
     window_handle_cache := window_handle_cache st;
     was_dirty := was_dirty st; desktop := desktop st; log := log st |}.

(** A listener as [__init__] leaves it. *)
Definition init (views : gmap Z bool) (d : User32.desktop) : state :=
  {| script_path := None; ready := false; window_handle_cache := ∅;
     was_dirty := views; desktop := d; log := [] |}.

(** A method call: its result or exception, and the state it leaves.  An
    exception keeps the effects that happened before it. *)
Definition M (A : Type) : Type := state → result A * state.

Definition not_ready_notice : str :=
  lit "[SetWindowTitle] Info: ST haven't finished loading yet, skipping.".

Definition dirty_marker : str := lit " " ++ [8226%N].
Definition editor_suffix : str := lit " - Sublime Text".
Definition quote : str := [34%N].

Section Host.
Variable h : host.

Definition get_project (view : sublime_view) : option str :=
  match window view with
  | None => None
  | Some window =>
      let project :=
        match project_file_name window with
        | Some p => p
        | None => []
        end in
      let project :=
        if nonempty project then project
        else match folders window with
             | f :: _ => f
             | [] => []
             end in
      let project :=
        if nonempty project
        then (path_splitext (os_path h) (path_basename (os_path h) project)).1
        else project in
      Some project
  end.

(** [view.name() or view.file_name() or "untitled"]. *)
Definition official_name (view : sublime_view) : str :=
  if nonempty (name view) then name view
  else match file_name view with
       | Some f => if nonempty f then f else lit "untitled"
       | None => lit "untitled"
       end.

Definition get_official_title (view : sublime_view) (project : option str)
    : str :=
  let official_title := path_basename (os_path h) (official_name view) in
  let official_title :=
    if is_dirty view then official_title ++ dirty_marker
    else official_title in
  let official_title :=
    if truth (opt_val project)
    then official_title ++ lit " (" ++ to_str (opt_val project) ++ lit ")"
    else official_title in
  official_title ++ editor_suffix.

(** Lines 174-177: the home directory at the front of the path becomes
    ["~"], in the modes "full" and "shortest". *)
Definition abbreviate_home (display : val) (full_path : str) : str :=
  if in_tuple display [lit "full"; lit "shortest"] then
    match HOME h with
    | Some home =>
        if nonempty home && startswith full_path home
        then lit "~" ++ drop (length home) full_path
        else full_path
    | None => full_path
    end
  else full_path.

(** Lines 179-183: [rel_path] is assigned in the modes "relative" and
    "shortest" only; [None] is the unassigned local. *)
Definition relative_to_root (display : val) (view : sublime_view)
    (full_path : str) : result (option str) :=
  if in_tuple display [lit "relative"; lit "shortest"] then
    let folders :=
      match window view with
      | Some w => folders w
      | None => []
      end in
    let root := match folders with f :: _ => f | [] => [] end in
    if nonempty root
       && bool_decide ((path_splitdrive (os_path h) full_path).1
                       = (path_splitdrive (os_path h) root).1)
    then match path_relpath (os_path h) full_path root with
         | Some r => Ok (Some r)
         | None => Raise ValueError
         end
    else Ok (Some full_path)
  else Ok None.

(** Reading a local variable. *)
Definition load (x : option str) : result str :=
  match x with
  | Some s => Ok s
  | None => Raise UnboundLocalError
  end.

Definition _get_displayed_path (view : sublime_view) : result val :=
  let view_name := name view in
  if nonempty view_name then Ok (PStr view_name)
  else
    match file_name view with
    | Some (c :: p) =>
        let full_path := c :: p in
        let display := settings_get h (lit "path_display") PNone in
        let full_path := abbreviate_home display full_path in
        rel_path ← relative_to_root display view full_path;;;
        if eq_lit display (lit "full") then Ok (PStr full_path)
        else if eq_lit display (lit "relative")
        then r ← load rel_path;;; Ok (PStr r)
        else
          r ← load rel_path;;;
          Ok (PStr (if length full_path <=? length r then full_path else r))
    | _ => Ok (settings_get h (lit "untitled") (PStr (lit "untitled")))
    end.

Definition _replace_condition (template : val) (condition : str)
    (value : val) : result str :=
  let replacement :=
    if truth value
    then settings_get h (condition ++ lit "_true") PNone
    else settings_get h (condition ++ lit "_false") PNone in
  match template with
  | PStr t =>
      match replacement with
      | PStr r => Ok (replace t (lit "{" ++ condition ++ lit "}") r)
      | _ => Raise TypeError
      end
  | _ => Raise AttributeError
  end.

Definition get_new_title (view : sublime_view) (project : option str)
    (old_title : str) : result str :=
  path ← _get_displayed_path view;;;
  let template := settings_get h (lit "template") PNone in
  template ← _replace_condition template (lit "has_project")
               (opt_val project);;;
  template ← _replace_condition (PStr template) (lit "is_dirty")
               (PBool (is_dirty view));;;
  Format.format (format_tail h)
    [(lit "path", path); (lit "project", opt_val project)] template.

(** The loop of lines 213-215, over the handles [Window.all()] returned. *)
Fixpoint rename_each (handles : list User32.HWND)
    (official_title new_title : str) : M unit :=
  λ st,
  match handles with
  | [] => (Ok tt, st)
  | w :: handles' =>
      match Window.title (desktop st) w with
      | Raise e => (Raise e, st)
      | Ok t =>
          if contains t official_title then
            match Window.set_title (desktop st) w new_title with
            | Raise e => (Raise e, st)
            | Ok d => rename_each handles' official_title new_title
                        (set_desktop d st)
            end
          else rename_each handles' official_title new_title st
      end
  end.

Definition rename_window (window : option sublime_window)
    (official_title new_title : str) : M unit :=
  λ st,
  let st := emit (Rename official_title new_title) st in
  let debug := truth (settings_get h (lit "debug") PNone) in
  match PLATFORM h with
  | linux =>
      let cmd :=
        lit "bash " ++ to_str (opt_val (script_path st)) ++ lit " "
        ++ quote ++ official_title ++ quote ++ lit " "
        ++ quote ++ new_title ++ quote in
      let st :=
        if debug
        then emit (Printed (lit "[SetWindowTitle] Debug: running: "
                          ++ lit " " ++ cmd)) st
        else st in
      let st := emit (Popen (cmd ++ lit " 1&2")) st in
      let output := popen h (cmd ++ lit " 1&2") in
      let st :=
        if debug
        then emit (Printed (lit "[SetWindowTitle] Debug: result: "
                          ++ lit " " ++ output)) st
        else st in
      (Ok tt, st)
  | windows =>
      match window with
      | None => (Raise AttributeError, st)
      | Some window =>
          match window_handle_cache st !! window_id window with
          | None =>
              let st := emit EnumWindows st in
              rename_each (Window.all (desktop st))
                official_title new_title st
              (* self.window_handle_cache[window.id()] = w: commented out *)
          | Some w =>
              match Window.set_title (desktop st) w new_title with
              | Raise e => (Raise e, st)
              | Ok d => (Ok tt, set_desktop d st)
              end
          end
      end
  | osx => (Ok tt, st)
  end.

(** [run(view)]; [view] is [None] when a window has no active view. *)
Definition run (view : option sublime_view) : M unit :=
  λ st,
  if negb (ready st) then (Ok tt, emit (Printed not_ready_notice) st)
  else
    match view with
    | None => (Raise AttributeError, st)
    | Some view =>
        let project := get_project view in
        let official_title := get_official_title view project in
        match get_new_title view project official_title with
        | Raise e => (Raise e, st)
        | Ok new_title =>
            match rename_window (window view) official_title new_title st
            with
            | (Raise e, st) => (Raise e, st)
            | (Ok _, st) =>
                (Ok tt, set_was_dirty (view_id view) (is_dirty view) st)
            end
        end
    end.

Definition on_activated_async (view : sublime_view) : M unit :=
  run (Some view).

Definition on_modified_async (view : sublime_view) : M unit :=
  λ st,
  if bool_decide (was_dirty st !! view_id view ≠ Some (is_dirty view))
  then run (Some view) st
  else (Ok tt, st).

Definition on_post_save_async (view : sublime_view) : M unit :=
  run (Some view).

(** The polling loop of lines 80-83 over the answers the host gives to
    [sublime.packages_path()], the first one read before the loop.  [None]
    when every answer is empty: the loop is still running. *)
Fixpoint poll (answers : list str) (st : state) : option (str * state) :=
  match answers with
  | [] => None
  | a :: answers' =>
      if nonempty a then Some (a, emit Sleep st)
      else poll answers' (emit Sleep st)
  end.

Definition wait_for_packages_path (answers : list str) (st : state)
    : option (str * state) :=
  match answers with
  | [] => None
  | a :: answers' => if nonempty a then Some (a, st) else poll answers' st
  end.

(** The loop of lines 90-91 over the active view of every window. *)
Fixpoint run_each (views : list (option sublime_view)) : M unit :=
  λ st,
  match views with
  | [] => (Ok tt, st)
  | v :: views' =>
      match run v st with
      | (Raise e, st) => (Raise e, st)
      | (Ok _, st) => run_each views' st
      end
  end.

Definition on_sublime_started (answers : list str)
    (active_views : list (option sublime_view)) (st : state)
    : option (result unit * state) :=
  match wait_for_packages_path answers st with
  | None => None
  | Some (packages_path, st) =>
      let sp :=
        match PLATFORM h with
        | linux =>
            Some (path_join (os_path h) packages_path
                    [package h; lit "fix_window_title.sh"])
        | _ => script_path st
        end in
      Some (run_each active_views (set_ready sp st))
  end.

(** What the host editor calls on the listener. *)
Inductive event : Type :=
  | Activated (view : sublime_view)
  | Modified (view : sublime_view)
  | PostSave (view : sublime_view)
  | Started (answers : list str) (active_views : list (option sublime_view)).

(** One call; the host drops the result and reports an exception on its
    console.  A start-up call that never leaves its polling loop leaves
    the state as it is. *)
Definition handle (st : state) (ev : event) : state :=
  match ev with
  | Activated v => (on_activated_async v st).2
  | Modified v => (on_modified_async v st).2
  | PostSave v => (on_post_save_async v st).2
  | Started answers views =>
      match on_sublime_started answers views st with
      | Some (_, st') => st'
      | None => st
      end
  end.

Definition handle_all (st : state) (evs : list event) : state :=
  foldl handle st evs.
End Host.

End SetWindowTitle.

(** ** Concrete hosts, windows and views used in the examples *)

Module Examples.
Import SetWindowTitle.

Definition settings_of (l : list (string * val)) : gmap str val :=
  list_to_map ((λ kv : string * val, (lit kv.1, kv.2)) <$> l).

(** The settings file shipped with the plugin, with a chosen template and
    path display. *)
Definition shipped (template : string) (path_display : val) : gmap str val :=
  settings_of
    [("template", PStr (lit template));
     ("has_project_true", PStr (lit " [{project}]"));
     ("has_project_false", PStr []);
     ("is_dirty_true", PStr (lit "*"));
     ("is_dirty_false", PStr []);
     ("path_display", path_display);
     ("untitled", PStr (lit "untitled"))].

(** A Linux host with the working directory ["/"].  The examples have no
    compound replacement field, so [format_tail] is not reached in them. *)
Definition linux_host (home : option str) (s : gmap str val) : host :=
  {| PLATFORM := linux;
     os_path := Posixpath.module (lit "/");
     HOME := home;
     settings := s;
     package := lit "SetWindowTitle";
     popen := λ _, [];
     format_tail := λ _ _, Raise ValueError |}.

(** A Windows host.  [ntpath.join], [ntpath.relpath] and [format_tail] are
    not reached in the examples. *)
Definition windows_host (s : gmap str val) : host :=
  {| PLATFORM := windows;
     os_path := Ntpath.module (λ a _, a) (λ _ _, None);
     HOME := None;
     settings := s;
     package := lit "SetWindowTitle";
     popen := λ _, [];
     format_tail := λ _ _, Raise ValueError |}.

Definition project_window (root : string) : sublime_window :=
  {| window_id := 1; project_file_name := None; folders := [lit root] |}.

Definition file_view (path : string) (dirty : bool) (w : option sublime_window)
    : sublime_view :=
  {| view_id := 1; name := []; file_name := Some (lit path);
     is_dirty := dirty; window := w |}.

(** A desktop with another program's window and the editor's window,
    handle 7, which shows the official title of ["a.py"]. *)
Definition two_windows : User32.desktop :=
  [(5%Z, lit "Terminal"); (7%Z, lit "a.py - Sublime Text")].

End Examples.

(** ** Vocabulary of the statements below *)

Module Spec.
Import SetWindowTitle.

(** The three notifications that carry a view. *)
Definition view_event (ev : event) : Prop :=
  match ev with
  | Activated _ | Modified _ | PostSave _ => True
  | Started _ _ => False
  end.

(** Whether an event reaches [run]: a modification does only when the
    recorded [WAS_DIRTY] differs from the dirty flag of the view. *)
Definition reaches_run (st : state) (ev : event) : bool :=
  match ev with
  | Modified view =>
      bool_decide (was_dirty st !! view_id view ≠ Some (is_dirty view))
  | _ => true
  end.

(** A code point that survives the trip through a window text: not NUL,
    within Unicode, not a surrogate. *)
Definition plain (c : N) : Prop :=
  (0 < c ≤ 0x10FFFF)%N ∧ Utf16.is_surrogate c = false.

(** Text without braces. *)
Definition brace_free (s : str) : Prop :=
  Forall (λ c, c ≠ Format.lbrace ∧ c ≠ Format.rbrace) s.

(** The text of a field that [str.format] looks up among the keyword
    arguments: not empty, no brace and none of the characters that start an
    attribute, an index, a conversion or a format specification, and not a
    number. *)
Definition keyword (field : str) : Prop :=
  field ≠ []
  ∧ Forall (λ c, c ≠ Format.rbrace ∧ Format.is_special c = false) field
  ∧ forallb Format.digit_like field = false.

(** A [tail] that refuses every field it is given: a text that renders
    with it has all its fields among the plain keywords. *)
Definition no_tail : Format.kwargs → str → result str :=
  λ _ _, Raise ValueError.

(** The placeholders the plugin fills in. *)
Definition recognized : list str :=
  [lit "path"; lit "project"; lit "has_project"; lit "is_dirty"].

Definition emit_all (es : list effect) (st : state) : state :=
  foldl (λ s e, emit e s) st es.

(** A series of rename calls for one window, each with its two titles. *)
Definition rename_all (h : host) (w : sublime_window)
    (calls : list (str * str)) (st : state) : state :=
  foldl (λ s call, (rename_window h (Some w) call.1 call.2 s).2) st calls.

(** Whether the loop of [rename_window] retitles the window [handle]: its
    title reads without error and contains the official title. *)
Definition matches (d : User32.desktop) (official_title : str)
    (handle : User32.HWND) : bool :=
  match Window.title d handle with
  | Ok t => contains t official_title
  | Raise _ => false
  end.

(** What no handler does, from a state [st] to a later state [st']: it
    does not write the window-handle cache; off Windows it makes no user32
    call, so the window texts of the state stay and nothing is enumerated
    (what a helper script started on Linux does to a window is outside the
    state); off Linux it runs no command. *)
Definition keeps_off_limits (h : host) (st st' : state) : Prop :=
  window_handle_cache st' = window_handle_cache st
  ∧ (PLATFORM h ≠ windows →
     desktop st' = desktop st
     ∧ (EnumWindows ∈ log st' → EnumWindows ∈ log st))
  ∧ (PLATFORM h ≠ linux →
     ∀ cmd, Popen cmd ∈ log st' → Popen cmd ∈ log st).

(** A view whose window offers no project root: no window, no folder, or an
    empty first folder. *)
Definition no_project_root (view : sublime_view) : Prop :=
  match window view with
  | Some w => match folders w with f :: _ => f = [] | [] => True end
  | None => True
  end.

(** The commands run so far, oldest first. *)
Definition commands (st : state) : list str :=
  omap (λ e, match e with Popen cmd => Some cmd | _ => None end) (log st).

(** The command line of the helper script for two titles. *)
Definition helper_command (script : option str)
    (official_title new_title : str) : str :=
  lit "bash " ++ to_str (opt_val script) ++ lit " "
  ++ [34%N] ++ official_title ++ [34%N] ++ lit " "
  ++ [34%N] ++ new_title ++ [34%N] ++ lit " 1&2".

End Spec.

(** ** More concrete inputs *)

Module Cases.
Import SetWindowTitle.

(** Two editor windows that show the same file, after another program's. *)
Definition three_windows : User32.desktop :=
  [(5%Z, lit "Terminal");
   (7%Z, lit "a.py - Sublime Text");
   (9%Z, lit "a.py - Sublime Text")].

(** Another program's window whose text is a lone surrogate, in front of
    the editor's window. *)
Definition unreadable_first : User32.desktop :=
  [(5%Z, [0xD800%N]); (7%Z, lit "a.py - Sublime Text")].

Definition windows_state (d : User32.desktop) : state :=
  set_ready None (init ∅ d).

(** A macOS host: the paths of [posixpath], working directory ["/"]. *)
Definition osx_host (home : option str) (s : gmap str val) : host :=
  {| PLATFORM := osx;
     os_path := Posixpath.module (lit "/");
     HOME := home;
     settings := s;
     package := lit "SetWindowTitle";
     popen := λ _, [];
     format_tail := λ _ _, Raise ValueError |}.

End Cases.

(** * Properties *)

Import SetWindowTitle.

(** ** Path display *)

Section PathDisplay.
Variable h : host.

Lemma eq_lit_true v s : eq_lit v s = true ↔ v = PStr s.
Proof.
  destruct v; simpl; try (split; [discriminate | congruence]).
  rewrite bool_decide_eq_true. split; congruence.
Qed.

Lemma relative_to_root_assigned display view full_path :
  in_tuple display [lit "relative"; lit "shortest"] = true →
  (∃ r, relative_to_root h display view full_path = Ok (Some r))
  ∨ relative_to_root h display view full_path = Raise ValueError.
Proof.
  intros Hin. unfold relative_to_root. rewrite Hin.
  destruct (_ && _); [destruct (path_relpath _ _ _)|]; eauto.
Qed.

Lemma relative_to_root_unassigned display view full_path :
  in_tuple display [lit "relative"; lit "shortest"] = false →
  relative_to_root h display view full_path = Ok None.
Proof. intros Hin. unfold relative_to_root. by rewrite Hin. Qed.
End PathDisplay.

(** C10: for a view without a name whose file path is present, the displayed
    path raises [UnboundLocalError] (the read of the unassigned [rel_path])
    exactly when the [path_display] setting is none of "full", "relative"
    and "shortest"; an absent setting is [None] and is such a value. *)
Theorem unrecognized_mode_reads_unassigned_rel_path
    (h : host) (view : sublime_view) (c : N) (p : str) :
  name view = [] →
  file_name view = Some (c :: p) →
  _get_displayed_path h view = Raise UnboundLocalError
  ↔ in_tuple (settings_get h (lit "path_display") PNone)
      [lit "full"; lit "relative"; lit "shortest"] = false.
Proof.
  intros Hname Hfile. unfold _get_displayed_path. rewrite Hname, Hfile. simpl nonempty. cbv iota.
  set (display := settings_get h (lit "path_display") PNone).
  set (full_path := abbreviate_home h display (c :: p)).
  assert (Hmodes : in_tuple display [lit "full"; lit "relative"; lit "shortest"]
          = eq_lit display (lit "full")
            || in_tuple display [lit "relative"; lit "shortest"]).
  { unfold in_tuple. simpl. reflexivity. }
  rewrite Hmodes.
  destruct (in_tuple display [lit "relative"; lit "shortest"]) eqn:Hrel.
  - rewrite orb_true_r.
    destruct (relative_to_root_assigned h display view full_path Hrel)
      as [[r ->] | ->]; simpl.
    + repeat case_match; split; discriminate.
    + split; discriminate.
  - rewrite orb_false_r, (relative_to_root_unassigned h _ _ _ Hrel). simpl.
    destruct (eq_lit display (lit "full")) eqn:Hfull.
    + split; discriminate.
    + assert (eq_lit display (lit "relative") = false) as ->.
      { unfold in_tuple in Hrel. simpl in Hrel. by apply orb_false_elim in Hrel as [? _]. }
      done.
Qed.

Lemma unrecognized_mode_witness :
  let h := Examples.linux_host None (Examples.shipped "{path}" PNone) in
  let view := Examples.file_view "/a" false None in
  name view = [] ∧ file_name view = Some (lit "/a")
  ∧ (_get_displayed_path h view = Raise UnboundLocalError
     ↔ in_tuple (settings_get h (lit "path_display") PNone)
         [lit "full"; lit "relative"; lit "shortest"] = false).
Proof.
  split; [reflexivity | split; [reflexivity |]].
  apply (unrecognized_mode_reads_unassigned_rel_path
           (Examples.linux_host None (Examples.shipped "{path}" PNone))
           (Examples.file_view "/a" false None) 47%N (lit "a")); reflexivity.
Defined.

(** The selection of line 190: in mode "shortest", for a view without a
    name whose file path is present, the displayed path is no longer than
    either of the two values the line compares, the path with the home
    directory abbreviated and [rel_path] as line 183 computes it, and it is
    the former when both have the same length. *)
Theorem shortest_is_no_longer_than_both_candidates
    (h : host) (view : sublime_view) (c : N) (p rel : str) :
  name view = [] →
  file_name view = Some (c :: p) →
  settings_get h (lit "path_display") PNone = PStr (lit "shortest") →
  relative_to_root h (PStr (lit "shortest")) view
    (abbreviate_home h (PStr (lit "shortest")) (c :: p)) = Ok (Some rel) →
  ∃ s, _get_displayed_path h view = Ok (PStr s)
       ∧ length s ≤ length (abbreviate_home h (PStr (lit "shortest")) (c :: p))
       ∧ length s ≤ length rel
       ∧ (length (abbreviate_home h (PStr (lit "shortest")) (c :: p))
          = length rel →
          s = abbreviate_home h (PStr (lit "shortest")) (c :: p)).
Proof.
  intros Hname Hfile Hmode Hrel.
  unfold _get_displayed_path. rewrite Hname, Hfile, Hmode. simpl nonempty. cbv iota.
  rewrite Hrel. simpl.
  set (full := abbreviate_home h (PStr (lit "shortest")) (c :: p)).
  destruct (Nat.leb_spec (length full) (length rel)) as [Hle | Hlt].
  - exists full. split_and!; [done | lia | lia | done].
  - exists rel. split_and!; [done | lia | lia | lia].
Qed.

Lemma shortest_witness :
  let h := Examples.linux_host (Some (lit "/home/u"))
             (Examples.shipped "{path}" (PStr (lit "shortest"))) in
  let view := Examples.file_view "/srv/p/notes.txt" false
                (Some (Examples.project_window "/srv/p")) in
  ∃ s, _get_displayed_path h view = Ok (PStr s)
       ∧ length s ≤ length (lit "/srv/p/notes.txt")
       ∧ length s ≤ length (lit "notes.txt")
       ∧ (length (lit "/srv/p/notes.txt") = length (lit "notes.txt") →
          s = lit "/srv/p/notes.txt").
Proof.
  apply (shortest_is_no_longer_than_both_candidates
           (Examples.linux_host (Some (lit "/home/u"))
              (Examples.shipped "{path}" (PStr (lit "shortest"))))
           (Examples.file_view "/srv/p/notes.txt" false
              (Some (Examples.project_window "/srv/p")))
           47%N (lit "srv/p/notes.txt") (lit "notes.txt"));
    reflexivity.
Defined.




(** In mode "shortest" the relative-path candidate is computed from the path
    whose home directory is already abbreviated, so it is not what mode
    "relative" displays for the same view. *)
Example shortest_relative_candidate_uses_abbreviated_path :
  let view := Examples.file_view "/home/u/p/a.py" false
                (Some (Examples.project_window "/home/u/p")) in
  let host_in mode := Examples.linux_host (Some (lit "/home/u"))
                        (Examples.shipped "{path}" (PStr (lit mode))) in
  _get_displayed_path (host_in "full") view = Ok (PStr (lit "~/p/a.py"))
  ∧ _get_displayed_path (host_in "relative") view = Ok (PStr (lit "a.py"))
  ∧ relative_to_root (host_in "shortest") (PStr (lit "shortest")) view
      (lit "~/p/a.py") = Ok (Some (lit "../../../~/p/a.py"))
  ∧ _get_displayed_path (host_in "shortest") view = Ok (PStr (lit "~/p/a.py")).
Proof. vm_compute. done. Qed.

(** C4: the code at the failing input.  With the home directory
    ["/home/u"], the file ["/home/u/p/a.py"] and the project root
    ["/home/u/p"], the full-path candidate (what mode "full" displays) is
    ["~/p/a.py"] and the relative-path candidate (what mode "relative"
    displays) is ["a.py"]; mode "shortest" displays ["~/p/a.py"], which is
    longer than the relative-path candidate.  Line 183 takes the relative
    path of the already abbreviated [full_path]. *)
Theorem shortest_displays_longer_than_relative_candidate :
  let view := Examples.file_view "/home/u/p/a.py" false
                (Some (Examples.project_window "/home/u/p")) in
  let host_in mode := Examples.linux_host (Some (lit "/home/u"))
                        (Examples.shipped "{path}" (PStr (lit mode))) in
  _get_displayed_path (host_in "full") view = Ok (PStr (lit "~/p/a.py"))
  ∧ _get_displayed_path (host_in "relative") view = Ok (PStr (lit "a.py"))
  ∧ _get_displayed_path (host_in "shortest") view = Ok (PStr (lit "~/p/a.py"))
  ∧ length (lit "a.py") < length (lit "~/p/a.py").
Proof. vm_compute. repeat split. lia. Qed.

(** C6, as amended: for a view without a name, a file path [p] and a
    non-empty home directory [home] that [p] starts with, mode "full"
    displays ["~"] followed by [p] without its first [len(home)]
    characters. *)
Theorem full_mode_abbreviates_home
    (h : host) (view : sublime_view) (p home : str) :
  name view = [] →
  file_name view = Some p →
  HOME h = Some home →
  home ≠ [] →
  startswith p home = true →
  settings_get h (lit "path_display") PNone = PStr (lit "full") →
  _get_displayed_path h view = Ok (PStr (lit "~" ++ drop (length home) p)).
Proof.
  intros Hname Hfile Hhome Hne Hpre Hmode.
  unfold _get_displayed_path. rewrite Hname, Hfile, Hmode. simpl nonempty. cbv iota.
  destruct p as [| c p]; [by destruct home |].
  rewrite (relative_to_root_unassigned h) by reflexivity.
  unfold abbreviate_home. rewrite Hhome, Hpre.
  destruct home; [done |]. reflexivity.
Qed.

Lemma full_mode_witness :
  let h := Examples.linux_host (Some (lit "/home/u"))
             (Examples.shipped "{path}" (PStr (lit "full"))) in
  let view := Examples.file_view "/home/u/p/a.py" false None in
  _get_displayed_path h view = Ok (PStr (lit "~/p/a.py")).
Proof.
  apply (full_mode_abbreviates_home
           (Examples.linux_host (Some (lit "/home/u"))
              (Examples.shipped "{path}" (PStr (lit "full"))))
           (Examples.file_view "/home/u/p/a.py" false None)
           (lit "/home/u/p/a.py") (lit "/home/u"));
    [reflexivity | reflexivity | reflexivity | discriminate
    | reflexivity | reflexivity].
Defined.

(** C6 as stated fails when [HOME] is the empty string: every path starts
    with it, and the guard [if home and ...] leaves the path as it is. *)
Lemma full_mode_empty_home_counterexample :
  let h := Examples.linux_host (Some [])
             (Examples.shipped "{path}" (PStr (lit "full"))) in
  let view := Examples.file_view "/a" false None in
  ¬ (name view = [] →
     file_name view = Some (lit "/a") →
     HOME h = Some [] →
     startswith (lit "/a") [] = true →
     settings_get h (lit "path_display") PNone = PStr (lit "full") →
     _get_displayed_path h view
     = Ok (PStr (lit "~" ++ drop (length ([] : str)) (lit "/a")))).
Proof.
  intros h view Hclaim.
  specialize (Hclaim eq_refl eq_refl eq_refl eq_refl eq_refl).
  vm_compute in Hclaim. discriminate Hclaim.
Qed.

(** C7: for a view without a name whose file path [p] is present, in a
    window whose first folder is on another drive than [p], mode "relative"
    displays [p] unchanged. *)
Theorem relative_mode_keeps_path_on_other_drive
    (h : host) (view : sublime_view) (w : sublime_window)
    (c : N) (p root : str) (more : list str) :
  name view = [] →
  file_name view = Some (c :: p) →
  window view = Some w →
  folders w = root :: more →
  (path_splitdrive (os_path h) (c :: p)).1
    ≠ (path_splitdrive (os_path h) root).1 →
  settings_get h (lit "path_display") PNone = PStr (lit "relative") →
  _get_displayed_path h view = Ok (PStr (c :: p)).
Proof.
  intros Hname Hfile Hwin Hfolders Hdrive Hmode.
  unfold _get_displayed_path. rewrite Hname, Hfile, Hmode. simpl nonempty. cbv iota.
  unfold relative_to_root, abbreviate_home. simpl in_tuple. cbv iota.
  rewrite Hwin, Hfolders.
  rewrite bool_decide_eq_false_2 by done. rewrite andb_false_r.
  reflexivity.
Qed.

Lemma relative_mode_witness :
  let h := Examples.windows_host
             (Examples.shipped "{path}" (PStr (lit "relative"))) in
  let view := Examples.file_view "C:\work\a.py" false
                (Some (Examples.project_window "D:\proj")) in
  (path_splitdrive (os_path h) (lit "C:\work\a.py")).1 = lit "C:"
  ∧ (path_splitdrive (os_path h) (lit "D:\proj")).1 = lit "D:"
  ∧ _get_displayed_path h view = Ok (PStr (lit "C:\work\a.py")).
Proof.
  split; [reflexivity | split; [reflexivity |]].
  apply (relative_mode_keeps_path_on_other_drive
           (Examples.windows_host
              (Examples.shipped "{path}" (PStr (lit "relative"))))
           (Examples.file_view "C:\work\a.py" false
              (Some (Examples.project_window "D:\proj")))
           (Examples.project_window "D:\proj")
           67%N (lit ":\work\a.py") (lit "D:\proj") []);
    [reflexivity | reflexivity | reflexivity | reflexivity
    | vm_compute; discriminate | reflexivity].
Defined.

(** ** The official title *)

(** C5: the official title is the base name of the view's name, or else of
    its file path, or else of "untitled"; then " •" exactly when the view is
    dirty; then the project in parentheses exactly when the project name is
    non-empty; then " - Sublime Text". *)
Theorem official_title_shape
    (h : host) (view : sublime_view) (project : option str) :
  get_official_title h view project
  = path_basename (os_path h)
      (if nonempty (name view) then name view
       else match file_name view with
            | Some (c :: f) => c :: f
            | _ => lit "untitled"
            end)
    ++ (if is_dirty view then lit " " ++ [8226%N] else [])
    ++ match project with
       | Some (c :: p) => lit " (" ++ (c :: p) ++ lit ")"
       | _ => []
       end
    ++ lit " - Sublime Text".
Proof.
  unfold get_official_title, official_name, dirty_marker, editor_suffix.
  assert (Hname :
    (if nonempty (name view) then name view
     else match file_name view with
          | Some f => if nonempty f then f else lit "untitled"
          | None => lit "untitled"
          end)
    = (if nonempty (name view) then name view
       else match file_name view with
            | Some (c :: f) => c :: f
            | _ => lit "untitled"
            end)).
  { destruct (nonempty (name view)); [done |].
    destruct (file_name view) as [[| c f] |]; done. }
  rewrite Hname.
  destruct (is_dirty view), project as [[| c p] |]; simpl truth; cbv iota;
    simpl opt_val; simpl to_str; rewrite <- ?app_assoc; try reflexivity.
  all: by rewrite ?app_nil_r.
Qed.

(** C9: computing the official title again with only the dirty flag changed
    moves nothing but the marker " •": one base name and one tail (project
    part and editor suffix) serve both computations. *)
Theorem dirty_flag_changes_marker_only
    (h : host) (view : sublime_view) (project : option str) :
  ∃ base project_part,
    base = path_basename (os_path h) (official_name view)
    ∧ (project_part = []
       ∨ ∃ p, project = Some p ∧ p ≠ []
              ∧ project_part = lit " (" ++ p ++ lit ")")
    ∧ get_official_title h (with_dirty false view) project
      = base ++ project_part ++ lit " - Sublime Text"
    ∧ get_official_title h (with_dirty true view) project
      = base ++ (lit " " ++ [8226%N]) ++ project_part ++ lit " - Sublime Text".
Proof.
  exists (path_basename (os_path h) (official_name view)).
  unfold get_official_title. simpl is_dirty.
  change (official_name (with_dirty false view)) with (official_name view).
  change (official_name (with_dirty true view)) with (official_name view).
  destruct project as [[| c p] |]; simpl truth; cbv iota.
  - exists []. split_and!; [done | by left | done |].
    by rewrite <- !app_assoc.
  - exists (lit " (" ++ (c :: p) ++ lit ")").
    split_and!; [done | right; by exists (c :: p) | |];
      unfold dirty_marker, editor_suffix; simpl opt_val; simpl to_str;
      by rewrite <- !app_assoc.
  - exists []. split_and!; [done | by left | done |].
    by rewrite <- !app_assoc.
Qed.

(** ** Readiness *)

Section Readiness.
Variable h : host.

Lemma rename_each_frame handles official_title new_title st :
  let st' := (rename_each handles official_title new_title st).2 in
  ready st' = ready st
  ∧ script_path st' = script_path st
  ∧ window_handle_cache st' = window_handle_cache st
  ∧ was_dirty st' = was_dirty st
  ∧ log st' = log st.
Proof.
  revert st. induction handles as [| w handles IH]; intros st; simpl; [done |].
  destruct (Window.title _ _); [| done].
  destruct (contains _ _); [| apply IH].
  destruct (Window.set_title _ _ _); [| done].
  apply (IH (set_desktop _ st)).
Qed.

Lemma rename_window_ready window official_title new_title st :
  ready (rename_window h window official_title new_title st).2 = ready st.
Proof.
  unfold rename_window. destruct (PLATFORM h); simpl.
  - by repeat case_match.
  - destruct window as [w |]; [| done].
    destruct (_ !! _).
    + by destruct (Window.set_title _ _ _).
    + match goal with
      | |- context [rename_each ?a ?b ?c ?d] =>
          by destruct (rename_each_frame a b c d) as [-> _]
      end.
  - done.
Qed.

Lemma run_ready view st : ready st = true → ready (run h view st).2 = true.
Proof.
  intros Hr. unfold run. rewrite Hr. simpl.
  destruct view as [view |]; [| done].
  destruct (get_new_title _ _ _ _); [| done].
  pose proof (rename_window_ready (window view)
                (get_official_title h view (get_project h view)) a st) as Hw.
  destruct (rename_window _ _ _ _ _) as [[] st']; simpl in *; congruence.
Qed.

Lemma run_each_ready views st :
  ready st = true → ready (run_each h views st).2 = true.
Proof.
  revert st. induction views as [| v views IH]; intros st Hr; simpl; [done |].
  pose proof (run_ready v st Hr) as Hv.
  destruct (run h v st) as [[] st']; simpl in *; auto.
Qed.

Lemma handle_ready st ev : ready st = true → ready (handle h st ev) = true.
Proof.
  intros Hr. destruct ev as [v | v | v | answers views]; simpl.
  - by apply run_ready.
  - unfold on_modified_async. case_bool_decide; [by apply run_ready | done].
  - by apply run_ready.
  - unfold on_sublime_started.
    destruct (wait_for_packages_path _ _) as [[pp st'] |]; [| done].
    destruct (run_each h views _) as [r st''] eqn:Hrun.
    change st'' with (r, st'').2. rewrite <- Hrun.
    by apply run_each_ready.
Qed.

Lemma handle_all_ready st evs :
  ready st = true → ready (handle_all h st evs) = true.
Proof.
  revert st. induction evs as [| ev evs IH]; intros st Hr; [done |].
  apply IH. by apply handle_ready.
Qed.

Lemma handle_not_ready st ev :
  ready st = false →
  Spec.view_event ev →
  handle h st ev
  = if Spec.reaches_run st ev then emit (Printed not_ready_notice) st else st.
Proof.
  intros Hr Hev. destruct ev as [v | v | v | answers views]; simpl in *;
    try done; unfold on_activated_async, on_modified_async,
              on_post_save_async, run; rewrite ?Hr; simpl; try done.
  case_bool_decide; by rewrite ?Hr.
Qed.

Lemma emit_all_app es1 es2 st :
  Spec.emit_all (es1 ++ es2) st = Spec.emit_all es2 (Spec.emit_all es1 st).
Proof. apply foldl_app. Qed.

Lemma emit_all_frame es st :
  ready (Spec.emit_all es st) = ready st
  ∧ was_dirty (Spec.emit_all es st) = was_dirty st
  ∧ log (Spec.emit_all es st) = log st ++ es.
Proof.
  revert st. induction es as [| e es IH]; intros st; simpl.
  - by rewrite app_nil_r.
  - destruct (IH (emit e st)) as (-> & -> & ->). simpl.
    by rewrite <- app_assoc.
Qed.
End Readiness.

(** C3, as amended: while the listener is not ready, a series of activate,
    modify and save events does nothing but log: each event that reaches
    [run] (every activation and save, and a modification whose view has a
    recorded [WAS_DIRTY] other than its dirty flag, or none) adds the one
    notice line, a modification whose recorded flag equals the dirty flag
    adds nothing, and no rename is invoked.  And once the listener is ready,
    it stays ready through every later call, the start-up call included. *)
Theorem not_ready_events_only_log_and_ready_is_kept (h : host) :
  (∀ st evs,
     ready st = false →
     Forall Spec.view_event evs →
     handle_all h st evs
     = Spec.emit_all
         (flat_map (λ ev, if Spec.reaches_run st ev
                          then [Printed not_ready_notice] else []) evs) st)
  ∧ (∀ st evs, ready st = true → ready (handle_all h st evs) = true).
Proof.
  split; [| apply handle_all_ready].
  intros st evs Hr Hevs. revert Hevs.
  induction evs as [| ev evs IH] using rev_ind; intros Hevs; [done |].
  apply Forall_app in Hevs as [Hevs Hev]. rewrite Forall_singleton in Hev.
  unfold handle_all in *. rewrite foldl_app, flat_map_app, emit_all_app.
  rewrite (IH Hevs). simpl foldl. simpl flat_map. rewrite app_nil_r.
  set (es := flat_map _ evs).
  destruct (emit_all_frame es st) as (Hr' & Hd' & _).
  rewrite handle_not_ready; [| by rewrite Hr' | done].
  assert (Spec.reaches_run (Spec.emit_all es st) ev = Spec.reaches_run st ev)
    as -> by (destruct ev; simpl; by rewrite ?Hd').
  by destruct (Spec.reaches_run st ev).
Qed.

Lemma not_ready_witness :
  let h := Examples.linux_host None (Examples.shipped "{path}" PNone) in
  let view := Examples.file_view "/a" true None in
  let evs := [Activated view; Modified view; PostSave view] in
  let st := init ∅ [] in
  (ready st = false ∧ Forall Spec.view_event evs)
  ∧ log (handle_all h st evs)
    = [Printed not_ready_notice; Printed not_ready_notice; Printed not_ready_notice]
  ∧ (ready (set_ready None st) = true
     ∧ ready (handle_all h (set_ready None st) (evs ++ [Started [] []]))
       = true).
Proof.
  intros h view evs st.
  assert (Hevs : Forall Spec.view_event evs) by (repeat constructor).
  split; [split; [reflexivity | exact Hevs] |]. split.
  - rewrite (proj1 (not_ready_events_only_log_and_ready_is_kept h)
               st evs eq_refl Hevs).
    reflexivity.
  - split; [reflexivity |].
    apply (proj2 (not_ready_events_only_log_and_ready_is_kept h)
             (set_ready None st) (evs ++ [Started [] []]) eq_refl).
Defined.

(** C3 as stated fails for a modification of a view whose recorded
    [WAS_DIRTY] equals its dirty flag (a view that an earlier listener, or
    an earlier session, has already seen): [on_modified_async] does not call
    [run], so no line is logged. *)
Lemma not_ready_modified_logs_nothing_counterexample :
  let h := Examples.linux_host None (Examples.shipped "{path}" PNone) in
  let view := Examples.file_view "/a" false None in
  let st := init {[ 1%Z := false ]} [] in
  ¬ (ready st = false →
     Spec.view_event (Modified view) →
     ∃ line, log (handle h st (Modified view)) = log st ++ [Printed line]).
Proof.
  intros h view st Hclaim.
  destruct (Hclaim eq_refl I) as [line Hlog].
  vm_compute in Hlog. discriminate Hlog.
Qed.

(** ** The window-handle cache *)

Section Cache.
Variable h : host.

Lemma rename_window_cache window official_title new_title st :
  window_handle_cache (rename_window h window official_title new_title st).2
  = window_handle_cache st.
Proof.
  unfold rename_window. destruct (PLATFORM h); simpl.
  - by repeat case_match.
  - destruct window as [w |]; [| done].
    destruct (_ !! _).
    + by destruct (Window.set_title _ _ _).
    + match goal with
      | |- context [rename_each ?a ?b ?c ?d] =>
          by destruct (rename_each_frame a b c d) as (_ & _ & -> & _)
      end.
  - done.
Qed.

Lemma rename_window_enumerates w official_title new_title st :
  PLATFORM h = windows →
  window_handle_cache st !! window_id w = None →
  log (rename_window h (Some w) official_title new_title st).2
  = log st ++ [Rename official_title new_title; EnumWindows].
Proof.
  intros Hp Hmiss. unfold rename_window. rewrite Hp. simpl. rewrite Hmiss.
  match goal with
  | |- context [rename_each ?a ?b ?c ?d] =>
      destruct (rename_each_frame a b c d) as (_ & _ & _ & _ & ->)
  end.
  simpl. by rewrite <- app_assoc.
Qed.
End Cache.

(** C2, as amended: on the Windows variant a rename call never stores a
    handle (the store at line 216 is commented out), so the cache keeps the
    value it has; for a window without a cache entry, as in every listener
    since [__init__], each call of a series enumerates the windows again. *)
Theorem rename_never_fills_cache_and_always_enumerates
    (h : host) (w : sublime_window) (calls : list (str * str)) (st : state) :
  PLATFORM h = windows →
  window_handle_cache st !! window_id w = None →
  window_handle_cache (Spec.rename_all h w calls st) = window_handle_cache st
  ∧ log (Spec.rename_all h w calls st)
    = log st ++ flat_map (λ call, [Rename call.1 call.2; EnumWindows]) calls.
Proof.
  intros Hp. revert st. unfold Spec.rename_all.
  induction calls as [| [o n] calls IH]; intros st Hmiss; simpl.
  - by rewrite app_nil_r.
  - pose proof (rename_window_cache h (Some w) o n st) as Hc.
    pose proof (rename_window_enumerates h w o n st Hp Hmiss) as Hl.
    destruct (IH (rename_window h (Some w) o n st).2) as [-> ->];
      [by rewrite Hc |].
    split; [done |]. rewrite Hl. by rewrite <- app_assoc.
Qed.

Lemma rename_witness :
  let h := Examples.windows_host (Examples.shipped "{path}" (PStr (lit "full"))) in
  let w := Examples.project_window "C:\proj" in
  let st := set_ready None (init ∅ Examples.two_windows) in
  let call := (lit "a.py - Sublime Text", lit "a.py") in
  window_handle_cache (Spec.rename_all h w [call; call] st) = ∅
  ∧ log (Spec.rename_all h w [call; call] st)
    = [Rename call.1 call.2; EnumWindows; Rename call.1 call.2; EnumWindows].
Proof.
  intros h w st call.
  apply (rename_never_fills_cache_and_always_enumerates h w [call; call] st);
    reflexivity.
Defined.

(** C2 as stated fails: the call below finds the editor's window by
    enumeration and retitles it, yet the cache has no entry for the window
    afterwards, and the next call enumerates again. *)
Lemma cache_stays_empty_counterexample :
  let h := Examples.windows_host (Examples.shipped "{path}" (PStr (lit "full"))) in
  let w := Examples.project_window "C:\proj" in
  let st := set_ready None (init ∅ Examples.two_windows) in
  let st1 := (rename_window h (Some w) (lit "a.py - Sublime Text") (lit "a.py") st).2 in
  let st2 := (rename_window h (Some w) (lit "a.py - Sublime Text") (lit "a.py") st1).2 in
  User32.text (desktop st1) 7%Z = 0xFEFF%N :: lit "a.py"
  ∧ ¬ (window_handle_cache st1 !! window_id w = Some 7%Z)
  ∧ ¬ (EnumWindows ∉ drop (length (log st1)) (log st2)).
Proof.
  intros h w st st1 st2. split; [by vm_compute |]. split.
  - assert (window_handle_cache st1 = ∅) as ->
      by apply (rename_window_cache h (Some w) _ _ st).
    by rewrite lookup_empty.
  - intros Hno. apply Hno. vm_compute. apply list_elem_of_In. simpl. auto.
Qed.

(** ** The title property and UTF-16 *)

Section Codec.
Import Utf16 Spec.
Local Open Scope N_scope.

Lemma le_unit_le_bytes (u : N) : le_unit (N.land u 0xFF) (N.shiftr u 8) = u.
Proof.
  unfold le_unit. change 0xFF with (N.ones 8).
  rewrite <- N.ldiff_ones_r. apply N.lor_ldiff_and.
Qed.

Lemma lor_shiftl_low (a b : N) :
  b < 1024 → N.lor (N.shiftl a 10) b = a * 1024 + b.
Proof.
  intros Hb. set (m := a * 1024 + b).
  assert (Ha : a = N.shiftr m 10).
  { rewrite N.shiftr_div_pow2. change (2 ^ 10) with 1024. subst m.
    rewrite N.div_add_l by lia. rewrite (N.div_small b) by lia. lia. }
  assert (Hb' : b = N.land m (N.ones 10)).
  { rewrite N.land_ones. change (2 ^ 10) with 1024. subst m.
    rewrite N.add_comm, N.Div0.mod_add. by rewrite N.mod_small. }
  rewrite Ha at 1. rewrite Hb' at 1.
  rewrite <- N.ldiff_ones_r. apply N.lor_ldiff_and.
Qed.

Lemma surrogate_pair (c : N) :
  0x10000 ≤ c ≤ 0x10FFFF →
  is_high (high_surrogate c) = true
  ∧ is_low (low_surrogate c) = true
  ∧ join_surrogates (high_surrogate c) (low_surrogate c) = c.
Proof.
  intros Hc. unfold is_high, is_low, join_surrogates, high_surrogate,
    low_surrogate.
  change (N.shiftr 0x10000 10) with 64.
  rewrite N.shiftr_div_pow2. change 0x3FF with (N.ones 10).
  rewrite !N.land_ones. change (2 ^ 10) with 1024.
  pose proof (N.Div0.div_mod c 1024) as Hdm.
  pose proof (N.mod_upper_bound c 1024 ltac:(lia)) as Hm.
  set (q := c / 1024) in *. set (r := c mod 1024) in *.
  assert (Hq : 64 ≤ q ≤ 1087) by lia.
  assert (Hhi : (0xD800 - 64 + q) mod 1024 = q - 64).
  { replace (0xD800 - 64 + q) with (q - 64 + 54 * 1024) by lia.
    rewrite N.Div0.mod_add. apply N.mod_small. lia. }
  assert (Hlo : (0xDC00 + r) mod 1024 = r).
  { replace (0xDC00 + r) with (r + 55 * 1024) by lia.
    rewrite N.Div0.mod_add. by apply N.mod_small. }
  rewrite Hhi, Hlo, lor_shiftl_low by done.
  split_and!.
  - apply andb_true_intro. split; apply N.leb_le; lia.
  - apply andb_true_intro. split; apply N.leb_le; lia.
  - lia.
Qed.

Lemma not_surrogate_not_high_low (c : N) :
  is_surrogate c = false → is_high c = false ∧ is_low c = false.
Proof.
  unfold is_surrogate, is_high, is_low.
  rewrite !andb_false_iff, !N.leb_gt. lia.
Qed.

Lemma units_of_char_plain (c : N) :
  plain c →
  ∃ us, units_of_char c = Some us
        ∧ Forall (λ u, 0 < u < 0x10000) us
        ∧ ∀ rest, str_of_units (us ++ rest) = cons c <$> str_of_units rest.
Proof.
  intros [Hc Hs]. unfold units_of_char.
  destruct (N.ltb_spec c 0x10000) as [Hlt | Hge].
  - rewrite Hs. exists [c]. split_and!; [done | |].
    + repeat constructor; lia.
    + intros rest. simpl.
      by destruct (not_surrogate_not_high_low c Hs) as [-> ->].
  - destruct (surrogate_pair c ltac:(lia)) as (Hhi & Hlo & Hjoin).
    exists [high_surrogate c; low_surrogate c]. split_and!; [done | |].
    + unfold is_high, is_low in *.
      apply andb_prop in Hhi as [?%N.leb_le ?%N.leb_le].
      apply andb_prop in Hlo as [?%N.leb_le ?%N.leb_le].
      repeat constructor; lia.
    + intros rest. simpl. by rewrite Hhi, Hlo, Hjoin.
Qed.

Lemma units_of_str_plain (s : str) :
  Forall plain s →
  ∃ us, units_of_str s = Some us
        ∧ Forall (λ u, 0 < u < 0x10000) us
        ∧ str_of_units us = Some s.
Proof.
  induction 1 as [| c s Hc _ (us & Hus & Hrange & Hback)]; simpl.
  - by exists [].
  - destruct (units_of_char_plain c Hc) as (cs & -> & Hcs & Hdec).
    rewrite Hus. exists (cs ++ us). split_and!; [done | |].
    + by apply Forall_app.
    + by rewrite Hdec, Hback.
Qed.

Lemma units_of_bytes_of_units (us : list N) :
  units_of_bytes le_unit (bytes_of_units us) = Some us.
Proof.
  induction us as [| u us IH]; [done |].
  simpl. rewrite IH. simpl. by rewrite le_unit_le_bytes.
Qed.

Lemma length_bytes_of_units (us : list N) :
  length (bytes_of_units us) = (length us * 2)%nat.
Proof. induction us as [| u us IH]; simpl; [done | by rewrite IH]. Qed.

Lemma bytes_of_units_app (us vs : list N) :
  bytes_of_units (us ++ vs) = bytes_of_units us ++ bytes_of_units vs.
Proof. unfold bytes_of_units. by rewrite flat_map_app. Qed.

Lemma wide_string_units (us : list N) (pad : list N) :
  Forall (λ u, 0 < u < 0x10000) us →
  User32.wide_string (bytes_of_units us ++ 0 :: 0 :: pad) = us.
Proof.
  induction 1 as [| u us Hu _ IH]; [done |].
  simpl. rewrite le_unit_le_bytes.
  destruct (N.eqb_spec u 0) as [-> | _]; [lia |]. by rewrite IH.
Qed.

Lemma decode_after_mark (us : list N) (s : str) :
  str_of_units us = Some s →
  decode (BOM ++ bytes_of_units us) = Ok s.
Proof.
  intros Hs. unfold decode. simpl.
  by rewrite units_of_bytes_of_units; simpl; rewrite Hs.
Qed.
End Codec.

Lemma text_SetWindowTextW (d : User32.desktop) (handle : User32.HWND)
    (buf : list N) :
  handle ∈ User32.EnumWindows d →
  User32.text (User32.SetWindowTextW d handle buf) handle
  = User32.wide_string buf.
Proof.
  unfold User32.EnumWindows, User32.text, User32.SetWindowTextW.
  induction d as [| [h' t] d IH]; intros Hin; [by apply elem_of_nil in Hin |].
  rewrite fmap_cons in Hin. simpl in Hin.
  destruct (decide (h' = handle)) as [-> | Hne].
  - simpl. rewrite bool_decide_eq_true_2 by done. simpl.
    by rewrite decide_True.
  - apply elem_of_cons in Hin as [-> | Hin]; [done |].
    specialize (IH Hin). simpl.
    rewrite bool_decide_eq_false_2 by done. simpl.
    rewrite decide_False by done.
    destruct (list_find _ _) as [[i [h'' t']] |]; simpl in *; done.
Qed.

Lemma title_of_text (d : User32.desktop) (handle : User32.HWND) :
  Window.title d handle
  = Utf16.decode (Utf16.bytes_of_units (User32.text d handle)).
Proof.
  unfold Window.title, User32.GetWindowTextW, User32.GetWindowTextLengthW.
  set (t := User32.text d handle).
  replace (length t + 1 - 1) with (length t) by lia.
  rewrite firstn_all, Nat.eqb_refl.
  rewrite bytes_of_units_app, take_app_length'; [done |].
  rewrite length_bytes_of_units. lia.
Qed.

(** C8, as amended: on the Windows variant, a title without NUL and without
    surrogate code points, written through the setter to an existing window,
    is what the getter reads back; in between, the window text is the byte
    order mark followed by the 16-bit code units of the title. *)
Theorem title_round_trip
    (d : User32.desktop) (handle : User32.HWND) (title : str) :
  handle ∈ User32.EnumWindows d →
  Forall Spec.plain title →
  ∃ d' us,
    Window.set_title d handle title = Ok d'
    ∧ Utf16.units_of_str title = Some us
    ∧ Forall (λ u, (u < 0x10000)%N) us
    ∧ User32.text d' handle = 0xFEFF%N :: us
    ∧ Window.title d' handle = Ok title.
Proof.
  intros Hin Hplain.
  destruct (units_of_str_plain title Hplain) as (us & Hus & Hrange & Hback).
  exists (User32.SetWindowTextW d handle
            (Utf16.BOM ++ Utf16.bytes_of_units us ++ replicate 10 0%N)), us.
  assert (Htext :
    User32.text (User32.SetWindowTextW d handle
                   (Utf16.BOM ++ Utf16.bytes_of_units us ++ replicate 10 0%N))
      handle = 0xFEFF%N :: us).
  { rewrite text_SetWindowTextW by done.
    change (Utf16.BOM ++ ?r) with (Utf16.bytes_of_units [0xFEFF%N] ++ r).
    rewrite app_assoc, <- bytes_of_units_app.
    apply (wide_string_units ([0xFEFF%N] ++ us)).
    apply Forall_app. split; [repeat constructor; lia | done]. }
  split_and!.
  - unfold Window.set_title, Utf16.encode. rewrite Hus. unfold bind.
    replace (length (Utf16.BOM ++ Utf16.bytes_of_units us) + 10
             - length (Utf16.BOM ++ Utf16.bytes_of_units us)) with 10 by lia.
    by rewrite <- app_assoc.
  - done.
  - eapply Forall_impl; [exact Hrange |]. simpl. lia.
  - done.
  - rewrite title_of_text, Htext.
    by apply (decode_after_mark us).
Qed.

Lemma title_round_trip_witness :
  let title := [97; 0x1F600; 233]%N in
  ∃ d' us,
    Window.set_title Examples.two_windows 7%Z title = Ok d'
    ∧ Utf16.units_of_str title = Some us
    ∧ Forall (λ u, (u < 0x10000)%N) us
    ∧ User32.text d' 7%Z = 0xFEFF%N :: us
    ∧ Window.title d' 7%Z = Ok title.
Proof.
  apply (title_round_trip Examples.two_windows 7%Z [97; 0x1F600; 233]%N).
  - apply list_elem_of_In. simpl. auto.
  - repeat constructor; try lia; reflexivity.
Defined.

(** C8 as stated fails for a title that holds NUL: the window text is a
    zero-terminated wide string, so the title is cut there. *)
Lemma title_with_nul_counterexample :
  let title := [97; 0; 98]%N in
  ¬ (∃ d', Window.set_title Examples.two_windows 7%Z title = Ok d'
           ∧ Window.title d' 7%Z = Ok title).
Proof.
  intros title (d' & Hset & Hget).
  vm_compute in Hset. injection Hset as <-.
  vm_compute in Hget. discriminate Hget.
Qed.

(** What the getter reads back there, and what the setter does with a lone
    surrogate. *)
Example title_with_nul_is_cut :
  (d ← Window.set_title Examples.two_windows 7%Z [97; 0; 98]%N;;;
   Window.title d 7%Z) = Ok [97%N]
  ∧ Window.set_title Examples.two_windows 7%Z [0xD800%N]
    = Raise UnicodeEncodeError.
Proof. by vm_compute. Qed.

(** ** Rendering the template *)

Section Replace.
Import Format Spec.
Variables old' new : str.

Lemma replace_go_no_lbrace (pre rest : str) :
  Forall (λ c, c ≠ lbrace) pre →
  replace_go (lbrace :: old') new 0 (pre ++ rest)
  = pre ++ replace_go (lbrace :: old') new 0 rest.
Proof.
  induction 1 as [| c pre Hc _ IH]; [done |].
  simpl. destruct (N.eqb_spec c lbrace) as [-> | _]; [done |].
  simpl. by rewrite IH.
Qed.

Lemma replace_no_lbrace (s : str) :
  Forall (λ c, c ≠ lbrace) s → replace s (lbrace :: old') new = s.
Proof.
  intros Hs. unfold replace.
  rewrite <- (app_nil_r s) at 1.
  rewrite (replace_go_no_lbrace s [] Hs). simpl. apply app_nil_r.
Qed.
End Replace.

(** Two brace-free texts, each followed by a closing brace: one starts with
    the other only when they are equal. *)
Lemma startswith_closed_field (name cond rest : str) :
  Forall (λ c, c ≠ Format.rbrace) name →
  Forall (λ c, c ≠ Format.rbrace) cond →
  startswith (name ++ Format.rbrace :: rest) (cond ++ [Format.rbrace]) = true →
  name = cond.
Proof.
  intros Hname. revert cond.
  induction Hname as [| c name Hc _ IH]; intros cond Hcond Hpre.
  - destruct Hcond as [| d cond Hd _]; [done |].
    cbn -[N.eqb] in Hpre. apply andb_prop in Hpre as [Heq%N.eqb_eq _]. congruence.
  - destruct Hcond as [| d cond Hd Hcond].
    + cbn -[N.eqb] in Hpre. apply andb_prop in Hpre as [Heq%N.eqb_eq _]. congruence.
    + cbn -[N.eqb] in Hpre. apply andb_prop in Hpre as [Heq%N.eqb_eq Hpre].
      f_equal; [done | by apply IH].
Qed.

(** Replacing the token of a condition passes over a field with another
    name. *)
Lemma replace_passes_other_field (cond new pre name post : str) :
  Forall (λ c, c ≠ Format.lbrace) pre →
  Forall (λ c, c ≠ Format.lbrace ∧ c ≠ Format.rbrace) name →
  Forall (λ c, c ≠ Format.rbrace) cond →
  name ≠ cond →
  replace (pre ++ lit "{" ++ name ++ lit "}" ++ post)
    (lit "{" ++ cond ++ lit "}") new
  = pre ++ lit "{" ++ name ++ lit "}"
    ++ replace post (lit "{" ++ cond ++ lit "}") new.
Proof.
  intros Hpre Hname Hcond Hne.
  change (lit "{" ++ ?x) with (Format.lbrace :: x).
  change (lit "}") with [Format.rbrace].
  unfold replace. rewrite replace_go_no_lbrace by done. f_equal.
  cbn [replace_go].
  destruct (startswith _ _) eqn:Hsw.
  { simpl in Hsw. exfalso. apply Hne.
    apply (startswith_closed_field name cond post); [| done | done].
    eapply Forall_impl; [exact Hname |]. simpl. tauto. }
  f_equal. rewrite replace_go_no_lbrace
    by (eapply Forall_impl; [exact Hname |]; simpl; tauto).
  reflexivity.
Qed.

Section FormatFacts.
Import Format Spec.
Variable tail : kwargs → str → result str.
Variable kw : kwargs.

Lemma format_go_text (pre rest : str) :
  brace_free pre →
  format_go tail kw Text (pre ++ rest) = emit pre (format_go tail kw Text rest).
Proof.
  induction 1 as [| c pre [Hl Hr] _ IH]; simpl.
  - by destruct (format_go _ _ _ _).
  - destruct (N.eqb_spec c lbrace); [done |].
    destruct (N.eqb_spec c rbrace); [done |].
    rewrite IH. by destruct (format_go tail kw Text rest).
Qed.

Lemma format_brace_free (s : str) : brace_free s → format tail kw s = Ok s.
Proof.
  intros Hs. unfold format. rewrite <- (app_nil_r s) at 1.
  rewrite format_go_text by done. simpl. by rewrite app_nil_r.
Qed.

Lemma format_go_field (acc name rest : str) :
  Forall (λ c, c ≠ rbrace ∧ is_special c = false) name →
  format_go tail kw (Field acc) (name ++ rbrace :: rest)
  = field tail kw (rev acc ++ name) rest (format_go tail kw Text rest).
Proof.
  intros Hname. revert acc.
  induction Hname as [| c name [Hr Hs] _ IH]; intros acc; simpl.
  - by rewrite app_nil_r.
  - destruct (N.eqb_spec c rbrace); [done |]. rewrite Hs, IH. simpl.
    by rewrite <- app_assoc.
Qed.

Lemma format_go_open (name rest : str) :
  keyword name →
  format_go tail kw Text (lbrace :: name ++ rbrace :: rest)
  = field tail kw name rest (format_go tail kw Text rest).
Proof.
  intros (Hne & Hname & _). destruct Hname as [| c name [Hr Hs] Hname]; [done |].
  simpl. destruct (N.eqb_spec c lbrace) as [-> | _]; [done |].
  destruct (N.eqb_spec c rbrace); [done |]. rewrite Hs.
  by rewrite format_go_field.
Qed.
End FormatFacts.

(** *** Text in front of a field *)

Lemma startswith_length (s p : str) :
  startswith s p = true → length p ≤ length s.
Proof.
  revert s. induction p as [| b p IH]; intros [| a s]; simpl; try done; [lia |].
  intros [_ Hp]%andb_prop. specialize (IH s Hp). lia.
Qed.

Lemma startswith_before_lbrace (old' pre rest : str) :
  Forall (λ c, c ≠ Format.lbrace) old' →
  startswith (pre ++ Format.lbrace :: rest) old' = startswith pre old'.
Proof.
  intros Hold. revert pre.
  induction Hold as [| b old' Hb _ IH]; intros [| a pre]; try done.
  - cbn -[N.eqb]. destruct (N.eqb_spec Format.lbrace b) as [Heq | _].
    + by destruct Hb.
    + reflexivity.
  - cbn -[N.eqb]. by rewrite IH.
Qed.

(** No occurrence of a token that has its only ["{"] in front reaches over
    the ["{"] of a following field. *)
Lemma replace_go_before_lbrace (old' new pre rest : str) (skip : nat) :
  Forall (λ c, c ≠ Format.lbrace) old' →
  skip ≤ length pre →
  replace_go (Format.lbrace :: old') new skip (pre ++ Format.lbrace :: rest)
  = replace_go (Format.lbrace :: old') new skip pre
    ++ replace_go (Format.lbrace :: old') new 0 (Format.lbrace :: rest).
Proof.
  intros Hold. revert skip.
  remember (replace_go _ new 0 (Format.lbrace :: rest)) as after eqn:Hafter.
  induction pre as [| c pre IH]; intros skip Hskip.
  - replace skip with 0 by (simpl in Hskip; lia). by subst after.
  - destruct skip as [| k].
    + rewrite <- app_comm_cons. cbn -[N.eqb startswith].
      change (startswith (c :: pre ++ Format.lbrace :: rest)
                (Format.lbrace :: old'))
        with (N.eqb c Format.lbrace
              && startswith (pre ++ Format.lbrace :: rest) old').
      change (startswith (c :: pre) (Format.lbrace :: old'))
        with (N.eqb c Format.lbrace && startswith pre old').
      rewrite startswith_before_lbrace by done.
      destruct (N.eqb c Format.lbrace && startswith pre old') eqn:Hsw.
      * apply andb_prop in Hsw as [_ Hsw%startswith_length].
        rewrite Nat.sub_0_r, (IH _ Hsw). by rewrite <- app_assoc.
      * by rewrite (IH 0 ltac:(lia)).
    + simpl. apply IH. simpl in Hskip. lia.
Qed.

Lemma replace_around_other_field (cond new pre name post : str) :
  Forall (λ c, c ≠ Format.lbrace ∧ c ≠ Format.rbrace) cond →
  Forall (λ c, c ≠ Format.lbrace ∧ c ≠ Format.rbrace) name →
  name ≠ cond →
  replace (pre ++ lit "{" ++ name ++ lit "}" ++ post)
    (lit "{" ++ cond ++ lit "}") new
  = replace pre (lit "{" ++ cond ++ lit "}") new
    ++ lit "{" ++ name ++ lit "}"
    ++ replace post (lit "{" ++ cond ++ lit "}") new.
Proof.
  intros Hcond Hname Hne.
  assert (Hcond' : Forall (λ c, c ≠ Format.rbrace) cond)
    by (eapply Forall_impl; [exact Hcond |]; simpl; tauto).
  assert (Hfield :
    replace (lit "{" ++ name ++ lit "}" ++ post) (lit "{" ++ cond ++ lit "}") new
    = lit "{" ++ name ++ lit "}"
      ++ replace post (lit "{" ++ cond ++ lit "}") new)
    by exact (replace_passes_other_field cond new [] name post
                (Forall_nil_2 _) Hname Hcond' Hne).
  rewrite <- Hfield.
  change (lit "{" ++ ?x) with (Format.lbrace :: x).
  unfold replace. apply replace_go_before_lbrace; [| lia].
  apply Forall_app. split; [| by repeat constructor].
  eapply Forall_impl; [exact Hcond |]. simpl. tauto.
Qed.

Section FormatPrefix.
Import Format Spec.
Variable tail : kwargs → str → result str.
Variable kw : kwargs.

Lemma emit_ok (out : str) (r : result str) (s : str) :
  emit out r = Ok s → ∃ s', r = Ok s' ∧ s = out ++ s'.
Proof. destruct r; simpl; [| done]. intros [= <-]. eauto. Qed.

Lemma emit_emit (a b : str) (r : result str) :
  emit a (emit b r) = emit (a ++ b) r.
Proof. destruct r; simpl; [| done]. by rewrite app_assoc. Qed.

Lemma field_prefix (name pre rest : str) (k k' : result str) (out : str) :
  field no_tail kw name pre k = Ok out →
  (∀ o, k = Ok o → k' = emit o (format_go tail kw Text rest)) →
  field tail kw name (pre ++ rest) k'
  = emit out (format_go tail kw Text rest).
Proof.
  unfold field. destruct name as [| c name]; [done |].
  destruct (forallb digit_like (c :: name)); [done |].
  destruct (lookup kw (c :: name)); [| done].
  intros (o & -> & ->)%emit_ok Hk. rewrite (Hk o eq_refl).
  by rewrite emit_emit.
Qed.

Lemma format_go_prefix (st : fstate) (pre rest out : str) :
  format_go no_tail kw st pre = Ok out →
  format_go tail kw st (pre ++ rest)
  = emit out (format_go tail kw Text rest).
Proof.
  revert st out. induction pre as [| c pre IH]; intros st out.
  - destruct st; simpl; try done. intros [= <-].
    by destruct (format_go tail kw Text rest).
  - rewrite <- app_comm_cons. cbn -[N.eqb]. destruct st.
    + destruct (N.eqb c lbrace); [apply IH |].
      destruct (N.eqb c rbrace); [apply IH |].
      intros (o & Ho & ->)%emit_ok. rewrite (IH _ _ Ho).
      by rewrite emit_emit.
    + destruct (N.eqb c lbrace).
      { intros (o & Ho & ->)%emit_ok. rewrite (IH _ _ Ho).
        by rewrite emit_emit. }
      destruct (N.eqb c rbrace); [done |].
      destruct (is_special c); [done | apply IH].
    + destruct (N.eqb c rbrace); [| done].
      intros (o & Ho & ->)%emit_ok. rewrite (IH _ _ Ho).
      by rewrite emit_emit.
    + destruct (N.eqb c rbrace).
      { intros Hf. apply (field_prefix _ _ _ _ _ _ Hf). intros o Ho.
        by apply IH. }
      destruct (is_special c); [done | apply IH].
Qed.

Lemma format_unknown_keyword_after (pre name post out : str) :
  format no_tail kw pre = Ok out →
  Spec.keyword name →
  lookup kw name = None →
  format tail kw (pre ++ lit "{" ++ name ++ lit "}" ++ post) = Raise KeyError.
Proof.
  intros Hpre Hname Hkw. unfold format.
  rewrite (format_go_prefix Text pre _ out Hpre).
  change (lit "{" ++ ?x) with (lbrace :: x). change (lit "}") with [rbrace].
  simpl app. rewrite format_go_open by done.
  destruct Hname as (Hne & _ & Hdigits).
  unfold field. destruct name; [done |]. by rewrite Hdigits, Hkw.
Qed.
End FormatPrefix.

Lemma replace_condition_text (h : host) (t cond : str) (value : val) (r : str) :
  settings_get h (cond ++ (if truth value then lit "_true" else lit "_false"))
    PNone = PStr r →
  _replace_condition h (PStr t) cond value
  = Ok (replace t (lit "{" ++ cond ++ lit "}") r).
Proof.
  intros Hr. unfold _replace_condition.
  by destruct (truth value); rewrite Hr.
Qed.

Lemma keyword_brace_free (name : str) :
  Spec.keyword name →
  Forall (λ c, c ≠ Format.lbrace ∧ c ≠ Format.rbrace) name.
Proof.
  intros (_ & Hname & _). eapply Forall_impl; [exact Hname |].
  intros c [Hr Hs]. split; [| done]. by intros ->.
Qed.

Lemma brace_free_no_lbrace (s : str) :
  Spec.brace_free s → Forall (λ c, c ≠ Format.lbrace) s.
Proof. intros Hs. eapply Forall_impl; [exact Hs |]. simpl. tauto. Qed.

(** C1, as amended: when the displayed path and the two condition texts are
    there, a template without braces is rendered as it is; but a placeholder
    whose name is a plain keyword outside the recognized set is not left in
    the output: whenever the text in front of it renders (with the condition
    tokens replaced), [str.format] raises [KeyError] for the template. *)
Theorem unknown_placeholder_raises_key_error
    (h : host) (view : sublime_view) (project : option str) (old_title : str)
    (path : val) (has_project_text is_dirty_text : str) :
  _get_displayed_path h view = Ok path →
  settings_get h
    (lit "has_project"
     ++ (if truth (opt_val project) then lit "_true" else lit "_false"))
    PNone = PStr has_project_text →
  settings_get h
    (lit "is_dirty"
     ++ (if truth (PBool (is_dirty view)) then lit "_true" else lit "_false"))
    PNone = PStr is_dirty_text →
  (∀ t,
     settings_get h (lit "template") PNone = PStr t →
     Spec.brace_free t →
     get_new_title h view project old_title = Ok t)
  ∧ (∀ pre name post out,
       settings_get h (lit "template") PNone
       = PStr (pre ++ lit "{" ++ name ++ lit "}" ++ post) →
       Format.format Spec.no_tail
         [(lit "path", path); (lit "project", opt_val project)]
         (replace (replace pre (lit "{has_project}") has_project_text)
            (lit "{is_dirty}") is_dirty_text) = Ok out →
       Spec.keyword name →
       name ∉ Spec.recognized →
       get_new_title h view project old_title = Raise KeyError).
Proof.
  intros Hpath Hhp Hd. split.
  - intros t Ht Hfree. unfold get_new_title. rewrite Hpath, Ht. cbn [bind]. cbv zeta.
    rewrite (replace_condition_text h _ _ _ _ Hhp). cbn [bind].
    rewrite (replace_condition_text h _ _ _ _ Hd). cbn [bind].
    change (lit "{" ++ ?x) with (Format.lbrace :: x).
    do 2 rewrite (replace_no_lbrace _ _ t) by by apply brace_free_no_lbrace.
    by apply format_brace_free.
  - intros pre name post out Ht Hpre Hname Hunknown.
    unfold Spec.recognized in Hunknown.
    rewrite !not_elem_of_cons in Hunknown.
    destruct Hunknown as (Hn1 & Hn2 & Hn3 & Hn4 & _).
    pose proof (keyword_brace_free name Hname) as Hnb.
    unfold get_new_title. rewrite Hpath, Ht. cbn [bind]. cbv zeta.
    rewrite (replace_condition_text h _ _ _ _ Hhp). cbn [bind].
    rewrite (replace_condition_text h _ _ _ _ Hd). cbn [bind].
    rewrite (replace_around_other_field (lit "has_project"));
      [| by repeat constructor | done | done].
    rewrite (replace_around_other_field (lit "is_dirty"));
      [| by repeat constructor | done | done].
    eapply format_unknown_keyword_after; [exact Hpre | done |].
    simpl. rewrite !bool_decide_eq_false_2; done.
Qed.

Lemma unknown_placeholder_witness :
  let h := Examples.linux_host None
             (Examples.shipped "{path}{has_project} ({branch})"
                (PStr (lit "full"))) in
  let view := Examples.file_view "/a" true None in
  get_new_title h view None [] = Raise KeyError.
Proof.
  intros h view.
  apply (proj2 (unknown_placeholder_raises_key_error h view None []
                  (PStr (lit "/a")) [] (lit "*") eq_refl eq_refl eq_refl)
           (lit "{path}{has_project} (") (lit "branch") (lit ")") (lit "/a (")).
  - reflexivity.
  - reflexivity.
  - split; [discriminate | split; [| reflexivity]].
    repeat constructor; discriminate.
  - unfold Spec.recognized. rewrite !not_elem_of_cons.
    split_and!; try discriminate. apply not_elem_of_nil.
Defined.

(** C1 as stated fails: a placeholder outside the recognized set stops the
    rendering with [KeyError] instead of being left in the output. *)
Lemma unknown_placeholder_counterexample :
  let h := Examples.linux_host None
             (Examples.shipped "{path} ({branch})" (PStr (lit "full"))) in
  let view := Examples.file_view "/a" false None in
  ¬ (∃ out, get_new_title h view None [] = Ok out
            ∧ contains out (lit "{branch}") = true).
Proof.
  intros h view (out & Hout & _). vm_compute in Hout. discriminate Hout.
Qed.

(** The two rendering scenarios of the specification, a field left empty,
    and the other ways a template fails. *)
Example rendering_scenarios :
  let render template dirty :=
    get_new_title
      (Examples.linux_host None
         (Examples.shipped template (PStr (lit "full"))))
      (Examples.file_view "foo.txt" dirty None) None [] in
  render "{path} - {is_dirty}Editor" true = Ok (lit "foo.txt - *Editor")
  ∧ render "{path}{has_project}" false = Ok (lit "foo.txt")
  ∧ render "{path} {project}" false = Ok (lit "foo.txt None")
  ∧ render "{{{path}}}" false = Ok (lit "{foo.txt}")
  ∧ render "{path} ({branch})" false = Raise KeyError
  ∧ render "{path} {}" false = Raise IndexError
  ∧ render "{path} }" false = Raise ValueError
  ∧ render "{path" false = Raise ValueError.
Proof. by vm_compute. Qed.

(** * Further properties of the code *)

(** ** The [Window] class: what the setter leaves alone, and its errors *)

Lemma EnumWindows_SetWindowTextW (d : User32.desktop) (h : User32.HWND)
    (buf : list N) :
  User32.EnumWindows (User32.SetWindowTextW d h buf) = User32.EnumWindows d.
Proof.
  unfold User32.EnumWindows, User32.SetWindowTextW.
  induction d as [| [h' t] d IH]; [done |].
  rewrite !fmap_cons, IH. f_equal. by case_bool_decide.
Qed.

Lemma text_SetWindowTextW_other (d : User32.desktop) (h x : User32.HWND)
    (buf : list N) :
  x ≠ h → User32.text (User32.SetWindowTextW d h buf) x = User32.text d x.
Proof.
  intros Hne. unfold User32.text, User32.SetWindowTextW.
  induction d as [| [h' t] d IH]; [done |].
  rewrite fmap_cons. simpl.
  destruct (decide (h' = x)) as [-> | Hx].
  - rewrite bool_decide_eq_false_2 by done. simpl. by rewrite decide_True.
  - assert (Hfst : (if bool_decide (h' = h)
                    then (h', User32.wide_string buf) else (h', t)).1 = h')
      by by case_bool_decide.
    rewrite decide_False by by rewrite Hfst.
    destruct (list_find _ (_ <$> d)) as [[i [a b]] |],
             (list_find _ d) as [[j [a' b']] |]; simpl in *; done.
Qed.

Lemma SetWindowTextW_absent (d : User32.desktop) (h : User32.HWND)
    (buf : list N) :
  h ∉ User32.EnumWindows d → User32.SetWindowTextW d h buf = d.
Proof.
  unfold User32.EnumWindows, User32.SetWindowTextW.
  induction d as [| [h' t] d IH]; [done |].
  csimpl. rewrite not_elem_of_cons. intros [Hne Hd].
  rewrite IH by done. by rewrite bool_decide_eq_false_2.
Qed.

Lemma set_title_inv (d d' : User32.desktop) (handle : User32.HWND)
    (title : str) :
  Window.set_title d handle title = Ok d' →
  ∃ buf, d' = User32.SetWindowTextW d handle buf.
Proof.
  unfold Window.set_title. destruct (Utf16.encode title); simpl; [| done].
  intros [= <-]. eauto.
Qed.

(** X1: retitling one window leaves the list of windows and the text of
    every other window as they were, and a handle that is no window at all
    (a stale one) changes nothing. *)
Theorem set_title_keeps_other_windows
    (d d' : User32.desktop) (handle : User32.HWND) (title : str) :
  Window.set_title d handle title = Ok d' →
  User32.EnumWindows d' = User32.EnumWindows d
  ∧ (∀ x, x ≠ handle → User32.text d' x = User32.text d x)
  ∧ (handle ∉ User32.EnumWindows d → d' = d).
Proof.
  intros (buf & ->)%set_title_inv. split_and!.
  - apply EnumWindows_SetWindowTextW.
  - intros x Hx. by apply text_SetWindowTextW_other.
  - apply SetWindowTextW_absent.
Qed.

Lemma set_title_keeps_other_windows_witness :
  ∃ d', Window.set_title Examples.two_windows 7%Z (lit "a.py") = Ok d'
        ∧ User32.EnumWindows d' = [5%Z; 7%Z]
        ∧ User32.text d' 5%Z = lit "Terminal".
Proof.
  eexists. split; [reflexivity |].
  destruct (set_title_keeps_other_windows Examples.two_windows _ 7%Z
              (lit "a.py") eq_refl) as (Henum & Hother & _).
  split; [exact Henum |]. apply (Hother 5%Z). discriminate.
Defined.

Lemma units_of_str_surrogate (s : str) :
  Utf16.units_of_str s = None
  ↔ Exists (λ c, Utf16.is_surrogate c = true) s.
Proof.
  induction s as [| c s IH]; simpl.
  - split; [done | by intros ?%Exists_nil].
  - rewrite Exists_cons, <- IH. unfold Utf16.units_of_char.
    destruct (N.ltb_spec c 0x10000) as [Hlt | Hge].
    + destruct (Utf16.is_surrogate c), (Utf16.units_of_str s); intuition (eauto; done).
    + assert (Utf16.is_surrogate c = false) as ->.
      { unfold Utf16.is_surrogate. apply andb_false_iff. right.
        apply N.leb_gt. lia. }
      destruct (Utf16.units_of_str s); intuition (eauto; done).
Qed.

Lemma units_of_str_app (s t : str) (us ut : list N) :
  Utf16.units_of_str s = Some us →
  Utf16.units_of_str t = Some ut →
  Utf16.units_of_str (s ++ t) = Some (us ++ ut).
Proof.
  revert us. induction s as [| c s IH]; intros us; simpl.
  - by intros [= <-].
  - destruct (Utf16.units_of_char c) as [cs |]; [| done].
    destruct (Utf16.units_of_str s) as [r |]; [| done].
    intros [= <-] Ht. rewrite (IH r eq_refl Ht). by rewrite <- app_assoc.
Qed.

(** X2: a title is cut at its first NUL.  Written through the setter to an
    existing window, the text in front of the NUL is what the getter reads
    back, whatever follows the NUL. *)
Theorem title_is_cut_at_nul
    (d : User32.desktop) (handle : User32.HWND) (a b : str) :
  handle ∈ User32.EnumWindows d →
  Forall Spec.plain a →
  Forall (λ c, Utf16.is_surrogate c = false) b →
  ∃ d', Window.set_title d handle (a ++ 0%N :: b) = Ok d'
        ∧ Window.title d' handle = Ok a.
Proof.
  intros Hin Ha Hb.
  destruct (units_of_str_plain a Ha) as (ua & Hua & Hrange & Hback).
  destruct (Utf16.units_of_str b) as [ub |] eqn:Hub.
  2: { apply units_of_str_surrogate, Exists_exists in Hub as (c & Hc & Hs).
       rewrite Forall_forall in Hb. specialize (Hb c Hc). congruence. }
  assert (Hunits : Utf16.units_of_str (a ++ 0%N :: b) = Some (ua ++ 0%N :: ub)).
  { apply units_of_str_app; [done |]. simpl. by rewrite Hub. }
  eexists. split.
  - unfold Window.set_title, Utf16.encode. rewrite Hunits. reflexivity.
  - rewrite title_of_text, text_SetWindowTextW by done.
    match goal with
    | |- context [User32.wide_string ?buf] =>
        replace buf
          with (Utf16.bytes_of_units (0xFEFF%N :: ua)
                ++ 0%N :: 0%N :: (Utf16.bytes_of_units ub ++ replicate 10 0%N))
    end.
    + rewrite (wide_string_units (0xFEFF%N :: ua)).
      * by apply (decode_after_mark ua).
      * constructor; [lia | done].
    + rewrite bytes_of_units_app.
      rewrite Nat.add_sub'.
      change (Utf16.bytes_of_units (0xFEFF%N :: ua))
        with (Utf16.BOM ++ Utf16.bytes_of_units ua).
      by rewrite <- !app_assoc.
Qed.

Lemma title_is_cut_at_nul_witness :
  ∃ d', Window.set_title Examples.two_windows 7%Z
          ([97; 233]%N ++ 0%N :: lit "tail") = Ok d'
        ∧ Window.title d' 7%Z = Ok [97; 233]%N.
Proof.
  apply (title_is_cut_at_nul Examples.two_windows 7%Z [97; 233]%N (lit "tail")).
  - apply list_elem_of_In. simpl. auto.
  - repeat constructor; try lia; reflexivity.
  - repeat constructor.
Defined.

(** ** The enumeration loop of [rename_window] *)


Lemma set_desktop_same (st : state) : set_desktop (desktop st) st = st.
Proof. by destruct st. Qed.

Lemma matches_same_text (d d' : User32.desktop) (official_title : str)
    (x : User32.HWND) :
  User32.text d' x = User32.text d x →
  Spec.matches d' official_title x = Spec.matches d official_title x.
Proof. intros Ht. unfold Spec.matches. by rewrite !title_of_text, Ht. Qed.

Lemma rename_each_no_match handles official_title new_title st :
  (∀ x, x ∈ handles →
        ∃ t, Window.title (desktop st) x = Ok t
             ∧ contains t official_title = false) →
  rename_each handles official_title new_title st = (Ok tt, st).
Proof.
  induction handles as [| w handles IH]; intros Hall; simpl; [done |].
  destruct (Hall w) as (t & -> & ->); [by left |].
  apply IH. intros x Hx. apply Hall. by right.
Qed.

Lemma rename_each_stops handles1 x handles2 official_title new_title st e :
  (∀ y, y ∈ handles1 →
        ∃ t, Window.title (desktop st) y = Ok t
             ∧ contains t official_title = false) →
  Window.title (desktop st) x = Raise e →
  rename_each (handles1 ++ x :: handles2) official_title new_title st
  = (Raise e, st).
Proof.
  induction handles1 as [| w handles1 IH]; intros Hall Hx; simpl.
  - by rewrite Hx.
  - destruct (Hall w) as (t & -> & ->); [by left |].
    apply IH; [| done]. intros y Hy. apply Hall. by right.
Qed.

Lemma rename_each_retitles handles official_title new_title us st :
  NoDup handles →
  (∀ x, x ∈ handles → x ∈ User32.EnumWindows (desktop st)) →
  (∀ x, x ∈ handles → ∃ t, Window.title (desktop st) x = Ok t) →
  Forall Spec.plain new_title →
  Utf16.units_of_str new_title = Some us →
  ∃ d',
    rename_each handles official_title new_title st
    = (Ok tt, set_desktop d' st)
    ∧ User32.EnumWindows d' = User32.EnumWindows (desktop st)
    ∧ ∀ x, User32.text d' x
           = if bool_decide (x ∈ handles)
                && Spec.matches (desktop st) official_title x
             then 0xFEFF%N :: us
             else User32.text (desktop st) x.
Proof.
  intros Hnd. revert st.
  induction Hnd as [| w handles Hw Hnd IH]; intros st Hin Hdec Hplain Hus.
  - exists (desktop st). by rewrite set_desktop_same.
  - destruct (Hdec w) as [t Ht]; [by left |].
    simpl. rewrite Ht.
    destruct (contains t official_title) eqn:Hc.
    + destruct (title_round_trip (desktop st) w new_title) as
        (d1 & us' & Hset & Hus' & _ & Htext1 & _); [apply Hin; by left | done |].
      assert (us' = us) as -> by congruence.
      destruct (set_title_keeps_other_windows _ _ _ _ Hset)
        as (Henum1 & Hother1 & _).
      rewrite Hset.
      destruct (IH (set_desktop d1 st)) as (d' & Hrun & Henum & Htext);
        [| | done | done |].
      { intros x Hx. simpl. rewrite Henum1. apply Hin. by right. }
      { intros x Hx. simpl. rewrite title_of_text, Hother1.
        - rewrite <- title_of_text. apply Hdec. by right.
        - by intros ->. }
      exists d'. split_and!; [done | by rewrite Henum | ].
      intros x. rewrite Htext. simpl desktop.
      destruct (decide (x = w)) as [-> | Hx].
      * rewrite (bool_decide_eq_false_2 (w ∈ handles)) by done.
        rewrite bool_decide_eq_true_2 by by left.
        unfold Spec.matches at 2. by rewrite Ht, Hc.
      * rewrite (matches_same_text (desktop st) d1) by by apply Hother1.
        rewrite Hother1 by done.
        assert (bool_decide (x ∈ w :: handles) = bool_decide (x ∈ handles))
          as -> by (apply bool_decide_ext; rewrite elem_of_cons; tauto).
        done.
    + destruct (IH st) as (d' & Hrun & Henum & Htext); [| | done | done |].
      { intros x Hx. apply Hin. by right. }
      { intros x Hx. apply Hdec. by right. }
      exists d'. split_and!; [done | done |].
      intros x. rewrite Htext.
      destruct (decide (x = w)) as [-> | Hx].
      * rewrite (bool_decide_eq_false_2 (w ∈ handles)) by done.
        assert (Spec.matches (desktop st) official_title w = false) as ->
          by (unfold Spec.matches; by rewrite Ht).
        by rewrite !andb_false_r.
      * assert (bool_decide (x ∈ w :: handles) = bool_decide (x ∈ handles))
          as -> by (apply bool_decide_ext; rewrite elem_of_cons; tauto).
        done.
Qed.

(** X3: on the Windows variant, when every window title reads without error
    and none contains the official title, a rename call returns normally and
    changes no window; the enumeration is all it does. *)
Theorem rename_without_match_changes_nothing
    (h : host) (w : sublime_window) (official_title new_title : str)
    (st : state) :
  PLATFORM h = windows →
  window_handle_cache st !! window_id w = None →
  (∀ x, x ∈ User32.EnumWindows (desktop st) →
        ∃ t, Window.title (desktop st) x = Ok t
             ∧ contains t official_title = false) →
  rename_window h (Some w) official_title new_title st
  = (Ok tt, Spec.emit_all [Rename official_title new_title; EnumWindows] st).
Proof.
  intros Hp Hmiss Hall. unfold rename_window. rewrite Hp. simpl.
  rewrite Hmiss. by apply rename_each_no_match.
Qed.

Lemma rename_without_match_witness :
  let h := Examples.windows_host (Examples.shipped "{path}" (PStr (lit "full"))) in
  let st := Cases.windows_state Examples.two_windows in
  (rename_window h (Some (Examples.project_window "C:\proj"))
     (lit "b.py - Sublime Text") (lit "b.py") st).1 = Ok tt
  ∧ desktop (rename_window h (Some (Examples.project_window "C:\proj"))
               (lit "b.py - Sublime Text") (lit "b.py") st).2
    = Examples.two_windows.
Proof.
  intros h st.
  rewrite (rename_without_match_changes_nothing h
             (Examples.project_window "C:\proj")
             (lit "b.py - Sublime Text") (lit "b.py") st eq_refl eq_refl).
  - split; reflexivity.
  - intros x Hx. apply list_elem_of_In in Hx. simpl in Hx.
    destruct Hx as [<- | [<- | []]]; eexists; split; reflexivity.
Defined.

(** X4: on the Windows variant, a window whose title cannot be decoded stops
    the rename with the decoder's exception: when the windows enumerated
    before it do not match, no window is retitled, whatever comes after
    it. *)
Theorem rename_stops_at_unreadable_title
    (h : host) (w : sublime_window) (official_title new_title : str)
    (st : state) (before after : list User32.HWND) (x : User32.HWND)
    (e : exn) :
  PLATFORM h = windows →
  window_handle_cache st !! window_id w = None →
  User32.EnumWindows (desktop st) = before ++ x :: after →
  (∀ y, y ∈ before →
        ∃ t, Window.title (desktop st) y = Ok t
             ∧ contains t official_title = false) →
  Window.title (desktop st) x = Raise e →
  rename_window h (Some w) official_title new_title st
  = (Raise e,
     Spec.emit_all [Rename official_title new_title; EnumWindows] st).
Proof.
  intros Hp Hmiss Henum Hbefore Hx. unfold rename_window. rewrite Hp. simpl.
  rewrite Hmiss. unfold Window.all. simpl desktop. rewrite Henum.
  by apply rename_each_stops.
Qed.

Lemma rename_stops_witness :
  let h := Examples.windows_host (Examples.shipped "{path}" (PStr (lit "full"))) in
  let st := Cases.windows_state Cases.unreadable_first in
  (rename_window h (Some (Examples.project_window "C:\proj"))
     (lit "a.py - Sublime Text") (lit "a.py") st).1 = Raise UnicodeDecodeError
  ∧ desktop (rename_window h (Some (Examples.project_window "C:\proj"))
               (lit "a.py - Sublime Text") (lit "a.py") st).2
    = Cases.unreadable_first.
Proof.
  intros h st.
  rewrite (rename_stops_at_unreadable_title h
             (Examples.project_window "C:\proj")
             (lit "a.py - Sublime Text") (lit "a.py") st [] [7%Z] 5%Z
             UnicodeDecodeError eq_refl eq_refl eq_refl).
  - split; reflexivity.
  - intros y Hy. by apply elem_of_nil in Hy.
  - reflexivity.
Defined.

(** X5: on the Windows variant, with distinct handles whose titles all read
    without error, a rename call with a title free of NUL and surrogates
    retitles every window whose title contains the official title (the loop
    does not stop at the first) and leaves the text of every other window as
    it was. *)
Theorem rename_retitles_every_match
    (h : host) (w : sublime_window) (official_title new_title : str)
    (st : state) :
  PLATFORM h = windows →
  window_handle_cache st !! window_id w = None →
  NoDup (User32.EnumWindows (desktop st)) →
  (∀ x, x ∈ User32.EnumWindows (desktop st) →
        ∃ t, Window.title (desktop st) x = Ok t) →
  Forall Spec.plain new_title →
  ∃ st',
    rename_window h (Some w) official_title new_title st = (Ok tt, st')
    ∧ User32.EnumWindows (desktop st') = User32.EnumWindows (desktop st)
    ∧ ∀ x, x ∈ User32.EnumWindows (desktop st) →
           if Spec.matches (desktop st) official_title x
           then Window.title (desktop st') x = Ok new_title
           else User32.text (desktop st') x = User32.text (desktop st) x.
Proof.
  intros Hp Hmiss Hnd Hdec Hplain.
  destruct (units_of_str_plain new_title Hplain) as (us & Hus & _ & Hback).
  set (st0 := emit EnumWindows (emit (Rename official_title new_title) st)).
  destruct (rename_each_retitles (User32.EnumWindows (desktop st0))
              official_title new_title us st0)
    as (d' & Hrun & Henum & Htext); try done.
  exists (set_desktop d' st0). split_and!.
  - unfold rename_window. rewrite Hp. simpl. by rewrite Hmiss.
  - done.
  - intros x Hx. simpl desktop.
    assert (Hx0 : x ∈ User32.EnumWindows (desktop st0)) by done.
    destruct (Spec.matches (desktop st) official_title x) eqn:Hm.
    + rewrite title_of_text, Htext, bool_decide_eq_true_2 by done.
      change (desktop st0) with (desktop st). rewrite Hm. simpl.
      by apply (decode_after_mark us).
    + rewrite Htext, bool_decide_eq_true_2 by done.
      change (desktop st0) with (desktop st). by rewrite Hm.
Qed.

Lemma rename_retitles_every_match_witness :
  let h := Examples.windows_host (Examples.shipped "{path}" (PStr (lit "full"))) in
  let st := Cases.windows_state Cases.three_windows in
  ∃ st',
    rename_window h (Some (Examples.project_window "C:\proj"))
      (lit "a.py - Sublime Text") (lit "a.py") st = (Ok tt, st')
    ∧ Window.title (desktop st') 7%Z = Ok (lit "a.py")
    ∧ Window.title (desktop st') 9%Z = Ok (lit "a.py")
    ∧ User32.text (desktop st') 5%Z = lit "Terminal".
Proof.
  intros h st.
  destruct (rename_retitles_every_match h (Examples.project_window "C:\proj")
              (lit "a.py - Sublime Text") (lit "a.py") st eq_refl eq_refl)
    as (st' & Hrun & _ & Hx).
  - simpl. repeat (apply NoDup_cons; split;
                     [rewrite ?not_elem_of_cons, ?elem_of_nil; intuition discriminate |]).
    apply NoDup_nil_2.
  - intros x Hin. apply list_elem_of_In in Hin. simpl in Hin.
    destruct Hin as [<- | [<- | [<- | []]]]; eexists; reflexivity.
  - change (lit "a.py") with [97; 46; 112; 121]%N.
    repeat constructor; try lia; reflexivity.
  - exists st'. split; [exact Hrun |].
    assert (Hin : ∀ x, In x [5%Z; 7%Z; 9%Z]
                       → x ∈ User32.EnumWindows (desktop st))
      by (intros x ?; by apply list_elem_of_In).
    pose proof (Hx 7%Z (Hin 7%Z ltac:(simpl; tauto))) as H7.
    pose proof (Hx 9%Z (Hin 9%Z ltac:(simpl; tauto))) as H9.
    pose proof (Hx 5%Z (Hin 5%Z ltac:(simpl; tauto))) as H5.
    change (Spec.matches (desktop st) (lit "a.py - Sublime Text") 7%Z)
      with true in H7.
    change (Spec.matches (desktop st) (lit "a.py - Sublime Text") 9%Z)
      with true in H9.
    change (Spec.matches (desktop st) (lit "a.py - Sublime Text") 5%Z)
      with false in H5.
    split; [exact H7 | split; [exact H9 | exact H5]].
Defined.

(** ** What the handlers never do *)

Section OffLimits.
Variable h : host.

Lemma keeps_refl st : Spec.keeps_off_limits h st st.
Proof. by repeat split. Qed.

Lemma keeps_trans st1 st2 st3 :
  Spec.keeps_off_limits h st1 st2 →
  Spec.keeps_off_limits h st2 st3 →
  Spec.keeps_off_limits h st1 st3.
Proof.
  intros (Hc1 & Hw1 & Hl1) (Hc2 & Hw2 & Hl2). split_and!.
  - congruence.
  - intros Hp. destruct (Hw1 Hp) as [Hd1 He1], (Hw2 Hp) as [Hd2 He2].
    split; [congruence | auto].
  - intros Hp cmd Hcmd. auto.
Qed.

Lemma keeps_emit e st :
  e ≠ EnumWindows → (∀ cmd, e ≠ Popen cmd) →
  Spec.keeps_off_limits h st (emit e st).
Proof.
  intros He Hp. split_and!; [done | |]; simpl.
  - intros _. split; [done |].
    rewrite elem_of_app, list_elem_of_singleton. by intros [? | ?].
  - intros _ cmd. rewrite elem_of_app, list_elem_of_singleton.
    intros [? | ?]; [done |]. by destruct (Hp cmd).
Qed.

Lemma keeps_log_only st st' :
  window_handle_cache st' = window_handle_cache st →
  desktop st' = desktop st →
  log st' = log st →
  Spec.keeps_off_limits h st st'.
Proof. intros Hc Hd Hl. unfold Spec.keeps_off_limits. by rewrite Hc, Hd, Hl. Qed.

Lemma keeps_rename_window window official_title new_title st :
  Spec.keeps_off_limits h st
    (rename_window h window official_title new_title st).2.
Proof.
  pose proof (rename_window_cache h window official_title new_title st) as Hc.
  split; [done |]. clear Hc.
  unfold rename_window. destruct (PLATFORM h) eqn:Hp; simpl.
  - split; [intros _ | done].
    destruct (truth _); simpl; (split; [done |]);
      rewrite !elem_of_app, !list_elem_of_singleton; intuition discriminate.
  - split; [done | intros _ cmd].
    destruct window as [w |]; simpl.
    + destruct (_ !! _).
      * destruct (Window.set_title _ _ _); simpl;
          rewrite elem_of_app, list_elem_of_singleton; intuition discriminate.
      * match goal with
        | |- context [rename_each ?a ?b ?c ?d] =>
            destruct (rename_each_frame a b c d) as (_ & _ & _ & _ & ->)
        end.
        simpl. rewrite !elem_of_app, !list_elem_of_singleton.
        intuition discriminate.
    + rewrite elem_of_app, list_elem_of_singleton. intuition discriminate.
  - split; [intros _; split; [done |] | intros _ cmd];
      rewrite elem_of_app, list_elem_of_singleton; intuition discriminate.
Qed.

Lemma keeps_run view st : Spec.keeps_off_limits h st (run h view st).2.
Proof.
  unfold run. destruct (ready st); simpl.
  - destruct view as [view |]; [| apply keeps_refl].
    destruct (get_new_title _ _ _ _) as [new_title | e]; [| apply keeps_refl].
    pose proof (keeps_rename_window (window view)
                  (get_official_title h view (get_project h view))
                  new_title st) as Hk.
    destruct (rename_window _ _ _ _ _) as [[] st']; simpl in *; [| done].
    eapply keeps_trans; [exact Hk |]. by apply keeps_log_only.
  - by apply keeps_emit.
Qed.

Lemma keeps_run_each views st :
  Spec.keeps_off_limits h st (run_each h views st).2.
Proof.
  revert st. induction views as [| v views IH]; intros st; simpl.
  - apply keeps_refl.
  - pose proof (keeps_run v st) as Hk.
    destruct (run h v st) as [[] st']; simpl in *; [| done].
    eapply keeps_trans; [exact Hk | apply IH].
Qed.

Lemma keeps_poll answers st a st' :
  poll answers st = Some (a, st') → Spec.keeps_off_limits h st st'.
Proof.
  revert st. induction answers as [| b answers IH]; intros st; simpl; [done |].
  destruct (nonempty b).
  - intros [= <- <-]. by apply keeps_emit.
  - intros Hp. eapply keeps_trans; [| by apply IH]. by apply keeps_emit.
Qed.

Lemma keeps_handle st ev : Spec.keeps_off_limits h st (handle h st ev).
Proof.
  destruct ev as [v | v | v | answers views]; simpl.
  - apply keeps_run.
  - unfold on_modified_async. case_bool_decide; [apply keeps_run |].
    apply keeps_refl.
  - apply keeps_run.
  - unfold on_sublime_started.
    destruct (wait_for_packages_path answers st) as [[a st1] |] eqn:Hw;
      [| apply keeps_refl].
    assert (Hk1 : Spec.keeps_off_limits h st st1).
    { unfold wait_for_packages_path in Hw. destruct answers as [| b answers];
        [done |]. destruct (nonempty b).
      - injection Hw as <- <-. apply keeps_refl.
      - by eapply keeps_poll. }
    match goal with
    | |- context [run_each h views ?s] =>
        pose proof (keeps_run_each views s) as Hk2;
        destruct (run_each h views s) as [r st2]
    end.
    eapply keeps_trans; [exact Hk1 |].
    eapply keeps_trans; [| exact Hk2]. by apply keeps_log_only.
Qed.

Lemma keeps_handle_all st evs :
  Spec.keeps_off_limits h st (handle_all h st evs).
Proof.
  revert st. induction evs as [| ev evs IH]; intros st; simpl.
  - apply keeps_refl.
  - eapply keeps_trans; [apply keeps_handle | apply IH].
Qed.
End OffLimits.

(** X6: no handler writes the window-handle cache: after any series of
    calls (start-up included) it is what it was, so in a listener made by
    [__init__] it is empty for good and the branch for a cached handle is
    never taken. *)
Theorem handlers_never_write_cache
    (h : host) (st : state) (evs : list event) :
  window_handle_cache (handle_all h st evs) = window_handle_cache st.
Proof. apply keeps_handle_all. Qed.

(** X7: on macOS the listener renames nothing: [rename_window] has a
    branch for Linux and one for Windows only, so after any series of calls
    the window texts are what they were, no enumeration has been added to
    the log and no command has been run. *)
Theorem on_osx_nothing_is_renamed
    (h : host) (st : state) (evs : list event) :
  PLATFORM h = osx →
  desktop (handle_all h st evs) = desktop st
  ∧ (EnumWindows ∈ log (handle_all h st evs) → EnumWindows ∈ log st)
  ∧ (∀ cmd, Popen cmd ∈ log (handle_all h st evs) → Popen cmd ∈ log st).
Proof.
  intros Hp.
  destruct (keeps_handle_all h st evs) as (_ & Hwin & Hlin).
  destruct Hwin as [Hd He]; [by rewrite Hp |].
  split_and!; [done | done |].
  apply Hlin. by rewrite Hp.
Qed.

(** X8: off Linux the listener never runs the helper script: a command
    that is not in the log stays out of it through any series of calls. *)
Theorem only_linux_runs_the_helper
    (h : host) (st : state) (evs : list event) (cmd : str) :
  PLATFORM h ≠ linux →
  Popen cmd ∉ log st →
  Popen cmd ∉ log (handle_all h st evs).
Proof.
  intros Hp Hout Hin. apply Hout.
  by apply (keeps_handle_all h st evs).
Qed.

Lemma on_osx_nothing_is_renamed_witness :
  let h := Cases.osx_host None
             (Examples.shipped "{path}" (PStr (lit "full"))) in
  let view := Examples.file_view "/a.py" true
                (Some (Examples.project_window "/proj")) in
  let evs := [Started [[]; lit "/packages"] [Some view]; Modified view] in
  desktop (handle_all h (init ∅ Examples.two_windows) evs)
  = Examples.two_windows
  ∧ (EnumWindows ∈ log (handle_all h (init ∅ Examples.two_windows) evs)
     → EnumWindows ∈ log (init ∅ Examples.two_windows))
  ∧ (∀ cmd, Popen cmd ∈ log (handle_all h (init ∅ Examples.two_windows) evs)
     → Popen cmd ∈ log (init ∅ Examples.two_windows)).
Proof.
  intros h view evs.
  apply (on_osx_nothing_is_renamed h (init ∅ Examples.two_windows) evs).
  reflexivity.
Defined.

Lemma only_linux_runs_the_helper_witness :
  let h := Examples.windows_host
             (Examples.shipped "{path}" (PStr (lit "full"))) in
  let view := Examples.file_view "C:\a.py" false
                (Some (Examples.project_window "C:\proj")) in
  let evs := [Started [lit "C:\packages"] [Some view]; Activated view] in
  Popen (lit "bash") ∉ log (handle_all h (init ∅ Examples.two_windows) evs).
Proof.
  intros h view evs.
  apply (only_linux_runs_the_helper h (init ∅ Examples.two_windows) evs
           (lit "bash")).
  - discriminate.
  - apply not_elem_of_nil.
Defined.

(** ** The recorded dirty flag *)

Lemma rename_window_was_dirty (h : host) window official_title new_title st :
  was_dirty (rename_window h window official_title new_title st).2
  = was_dirty st.
Proof.
  unfold rename_window. destruct (PLATFORM h); simpl.
  - by repeat case_match.
  - destruct window as [w |]; [| done].
    destruct (_ !! _).
    + by destruct (Window.set_title _ _ _).
    + match goal with
      | |- context [rename_each ?a ?b ?c ?d] =>
          by destruct (rename_each_frame a b c d) as (_ & _ & _ & -> & _)
      end.
  - done.
Qed.

(** X9: in a ready listener, [run] records the dirty flag of the view
    exactly when it succeeds, and then a modification notice for the same
    view with the same flag is ignored; when [run] raises, the recorded
    flags are what they were, so the next notice tries again. *)
Theorem run_records_dirty_flag_on_success
    (h : host) (view : sublime_view) (st st' : state) (r : result unit) :
  ready st = true →
  run h (Some view) st = (r, st') →
  match r with
  | Ok _ =>
      was_dirty st' = <[view_id view := is_dirty view]> (was_dirty st)
      ∧ on_modified_async h view st' = (Ok tt, st')
  | Raise _ => was_dirty st' = was_dirty st
  end.
Proof.
  intros Hr. unfold run. rewrite Hr. simpl.
  destruct (get_new_title _ _ _ _) as [new_title | e];
    [| by intros [= <- <-]].
  pose proof (rename_window_was_dirty h (window view)
                (get_official_title h view (get_project h view))
                new_title st) as Hd.
  destruct (rename_window _ _ _ _ _) as [[[] | e] st1]; simpl in Hd;
    intros [= <- <-]; [| done].
  simpl. rewrite Hd. split; [done |].
  unfold on_modified_async. simpl.
  rewrite bool_decide_eq_false_2; [done |].
  rewrite lookup_insert_eq. by intros [].
Qed.

Lemma run_records_dirty_flag_witness :
  let h := Examples.linux_host None
             (Examples.shipped "{path}" (PStr (lit "full"))) in
  let view := Examples.file_view "/a.py" true None in
  let st := set_ready (Some (lit "/fix.sh")) (init ∅ []) in
  was_dirty (run h (Some view) st).2 = <[1%Z := true]> ∅
  ∧ on_modified_async h view (run h (Some view) st).2
    = (Ok tt, (run h (Some view) st).2).
Proof.
  intros h view st.
  apply (run_records_dirty_flag_on_success h view st _ (Ok tt) eq_refl).
  reflexivity.
Defined.

(** ** Start-up *)

(** X10: the start-up loop takes the first non-empty answer of the host and
    has slept once for every empty answer before it. *)
Theorem polling_sleeps_once_per_empty_answer
    (empties : list str) (a : str) (rest : list str) (st : state) :
  Forall (λ x, x = []) empties →
  a ≠ [] →
  wait_for_packages_path (empties ++ a :: rest) st
  = Some (a, Spec.emit_all (replicate (length empties) Sleep) st).
Proof.
  intros Hempty Ha.
  assert (Hne : nonempty a = true) by by destruct a.
  assert (Hpoll : ∀ es st, Forall (λ x, x = []) es →
            poll (es ++ a :: rest) st
            = Some (a, Spec.emit_all (replicate (S (length es)) Sleep) st)).
  { intros es. induction es as [| e es IH]; intros s Hes; simpl.
    - by rewrite Hne.
    - apply Forall_cons in Hes as [-> Hes]. simpl. by rewrite IH. }
  destruct Hempty as [| e es -> Hes]; simpl.
  - by rewrite Hne.
  - by apply Hpoll.
Qed.

Lemma polling_witness :
  wait_for_packages_path ([[]; []] ++ lit "/packages" :: [[]]) (init ∅ [])
  = Some (lit "/packages", Spec.emit_all [Sleep; Sleep] (init ∅ [])).
Proof.
  apply (polling_sleeps_once_per_empty_answer [[]; []] (lit "/packages") [[]]
           (init ∅ [])).
  - repeat constructor.
  - discriminate.
Defined.

Lemma first_nonempty (answers : list str) :
  Exists (λ a, a ≠ []) answers →
  ∃ empties a rest,
    answers = empties ++ a :: rest ∧ Forall (λ x, x = []) empties ∧ a ≠ [].
Proof.
  induction answers as [| b answers IH]; [by intros ?%Exists_nil |].
  destruct b as [| c b].
  - intros [? | Hex]%Exists_cons; [done |].
    destruct (IH Hex) as (es & a & rest & -> & Hes & Ha).
    exists ([] :: es), a, rest. split_and!; [done | by constructor | done].
  - intros _. by exists [], (c :: b), answers.
Qed.

Lemma poll_none (answers : list str) (st : state) :
  Forall (λ x, x = []) answers → poll answers st = None.
Proof.
  intros Hall. revert st.
  induction Hall as [| a answers -> _ IH]; intros st; simpl; [done | apply IH].
Qed.

(** X11: the start-up call makes the listener ready exactly when the host
    gives a non-empty packages path: a listener that was not ready is ready
    afterwards if and only if some answer is non-empty. *)
Theorem started_makes_ready_iff_answered
    (h : host) (st : state) (answers : list str)
    (active_views : list (option sublime_view)) :
  ready (handle h st (Started answers active_views)) = true
  ↔ ready st = true ∨ Exists (λ a, a ≠ []) answers.
Proof.
  split.
  - destruct (decide (Exists (λ a : str, a ≠ []) answers)) as [| Hno];
      [by right |].
    intros Hr. left.
    assert (Hall : Forall (λ x : str, x = []) answers).
    { apply Forall_forall. intros x Hx. destruct x as [| c x]; [done |].
      destruct Hno. apply Exists_exists. by exists (c :: x). }
    simpl in Hr. unfold on_sublime_started, wait_for_packages_path in Hr.
    destruct Hall as [| a answers -> Hall]; [done |].
    simpl in Hr. by rewrite poll_none in Hr.
  - intros [Hr | Hex]; [by apply handle_ready |].
    destruct (first_nonempty answers Hex) as (es & a & rest & -> & Hes & Ha).
    simpl. unfold on_sublime_started.
    rewrite polling_sleeps_once_per_empty_answer by done.
    match goal with
    | |- context [run_each h active_views ?s] =>
        pose proof (run_each_ready h active_views s eq_refl) as Hready;
        destruct (run_each h active_views s) as [r st2]
    end.
    done.
Qed.

(** ** Path display without a project root, and on POSIX *)

(** X12: for a view without a name whose file path is present and whose
    window offers no project root, mode "relative" displays the path
    unchanged and mode "shortest" displays the path with the home directory
    abbreviated, as mode "full" does; neither fails. *)
Theorem without_project_root_display_degrades
    (h : host) (view : sublime_view) (c : N) (p : str) :
  name view = [] →
  file_name view = Some (c :: p) →
  Spec.no_project_root view →
  (settings_get h (lit "path_display") PNone = PStr (lit "relative") →
   _get_displayed_path h view = Ok (PStr (c :: p)))
  ∧ (settings_get h (lit "path_display") PNone = PStr (lit "shortest") →
     _get_displayed_path h view
     = Ok (PStr (abbreviate_home h (PStr (lit "full")) (c :: p)))).
Proof.
  intros Hname Hfile Hroot.
  assert (Hrel : ∀ display full_path,
            in_tuple display [lit "relative"; lit "shortest"] = true →
            relative_to_root h display view full_path = Ok (Some full_path)).
  { intros display full_path Hin. unfold relative_to_root. rewrite Hin.
    unfold Spec.no_project_root in Hroot.
    destruct (window view) as [w |]; [| done].
    destruct (folders w) as [| f more]; [done |]. by subst f. }
  split; intros Hmode; unfold _get_displayed_path;
    rewrite Hname, Hfile, Hmode; simpl nonempty; cbv iota;
    rewrite Hrel by reflexivity; simpl.
  - reflexivity.
  - by rewrite Nat.leb_refl.
Qed.

Lemma without_project_root_witness :
  let view := Examples.file_view "/home/u/a.py" false None in
  let host_in mode := Examples.linux_host (Some (lit "/home/u"))
                        (Examples.shipped "{path}" (PStr (lit mode))) in
  _get_displayed_path (host_in "relative") view = Ok (PStr (lit "/home/u/a.py"))
  ∧ _get_displayed_path (host_in "shortest") view = Ok (PStr (lit "~/a.py")).
Proof.
  intros view host_in. split.
  - apply (without_project_root_display_degrades (host_in "relative") view
             47%N (lit "home/u/a.py") eq_refl eq_refl I).
    reflexivity.
  - apply (without_project_root_display_degrades (host_in "shortest") view
             47%N (lit "home/u/a.py") eq_refl eq_refl I).
    reflexivity.
Defined.



(** ** The project name *)

Lemma rfind_go_absent (c : N) (s : str) (i acc : Z) :
  Forall (λ x, x ≠ c) s → rfind_go c s i acc = acc.
Proof.
  intros Hs. revert i acc.
  induction Hs as [| x s Hx _ IH]; intros i acc; simpl; [done |].
  destruct (N.eqb_spec x c); [done | apply IH].
Qed.

Lemma rfind_go_last (c : N) (a b : str) (i acc : Z) :
  Forall (λ x, x ≠ c) b →
  rfind_go c (a ++ c :: b) i acc = (i + Z.of_nat (length a))%Z.
Proof.
  intros Hb. revert i acc.
  induction a as [| x a IH]; intros i acc; simpl.
  - rewrite N.eqb_refl, rfind_go_absent by done. lia.
  - rewrite IH. lia.
Qed.

Lemma last_occurrence (c : N) (s : str) :
  Forall (λ x, x ≠ c) s
  ∨ ∃ a b, s = a ++ c :: b ∧ Forall (λ x, x ≠ c) b.
Proof.
  induction s as [| x s [Hs | (a & b & -> & Hb)]].
  - by left.
  - destruct (decide (x = c)) as [-> | Hx].
    + right. by exists [], s.
    + left. by constructor.
  - right. by exists (x :: a), b.
Qed.

Lemma posix_basename_absent (p : str) :
  Forall (λ x, x ≠ Posixpath.sep) p → Posixpath.basename p = p.
Proof.
  intros Hp. unfold Posixpath.basename, rfind.
  by rewrite rfind_go_absent.
Qed.

Lemma posix_basename_last (a b : str) :
  Forall (λ x, x ≠ Posixpath.sep) b →
  Posixpath.basename (a ++ Posixpath.sep :: b) = b.
Proof.
  intros Hb. unfold Posixpath.basename, rfind, from.
  rewrite rfind_go_last by done.
  replace (Z.to_nat (0 + Z.of_nat (length a) + 1)) with (length (a ++ [Posixpath.sep]))
    by (rewrite length_app; simpl; lia).
  by rewrite (cons_middle _ a b), app_assoc, drop_app_length.
Qed.

Lemma posix_basename_no_sep (p : str) :
  Forall (λ x, x ≠ Posixpath.sep) (Posixpath.basename p).
Proof.
  destruct (last_occurrence Posixpath.sep p) as [Hp | (a & b & -> & Hb)].
  - by rewrite posix_basename_absent.
  - by rewrite posix_basename_last.
Qed.

Lemma generic_splitext_root (sep : N) (altsep : option N) (extsep : N)
    (p : str) :
  ∃ n, (generic_splitext sep altsep extsep p).1 = take n p.
Proof.
  unfold generic_splitext. case_match; simpl.
  - eexists. reflexivity.
  - exists (length p). by rewrite firstn_all.
Qed.

(** X14: on a POSIX host the project name never holds a ["/"]: it is taken
    from the last component of the project file or of the first folder. *)
Theorem posix_project_name_has_no_separator
    (h : host) (cwd : str) (view : sublime_view) (project : str) :
  os_path h = Posixpath.module cwd →
  get_project h view = Some project →
  Forall (λ c, c ≠ 47%N) project.
Proof.
  intros Hos. unfold get_project.
  destruct (window view) as [w |]; [| done]. cbv zeta.
  match goal with
  | |- context [path_basename _ ?x] => set (chosen := x)
  end.
  rewrite Hos. simpl path_basename. simpl path_splitext.
  destruct (nonempty chosen) eqn:Hne; intros [= <-].
  - destruct (generic_splitext_root Posixpath.sep None Posixpath.extsep
                (Posixpath.basename chosen)) as [n Hn].
    unfold Posixpath.splitext. rewrite Hn.
    apply Forall_take, posix_basename_no_sep.
  - destruct chosen; [constructor | done].
Qed.

Lemma posix_project_name_witness :
  Forall (λ c, c ≠ 47%N) (lit "p").
Proof.
  apply (posix_project_name_has_no_separator
           (Examples.linux_host None (Examples.shipped "{path}" PNone))
           (lit "/")
           (Examples.file_view "/home/u/p/a.py" false
              (Some (Examples.project_window "/home/u/p")))
           (lit "p")); reflexivity.
Defined.

(** X15: on a POSIX host, a window with the project file
    [dir/stem.ext] (the directory part empty or ending in ["/"], the stem
    without ["/"] and not made of dots only, the extension without ["/"] and
    ["."]) has the project name [stem], whatever its folders are. *)
Theorem posix_project_name_is_stem_of_project_file
    (h : host) (cwd : str) (view : sublime_view) (w : sublime_window)
    (dir stem ext : str) :
  os_path h = Posixpath.module cwd →
  window view = Some w →
  project_file_name w = Some (dir ++ stem ++ lit "." ++ ext) →
  dir = [] ∨ last dir = Some 47%N →
  Forall (λ c, c ≠ 47%N) stem →
  Exists (λ c, c ≠ 46%N) stem →
  Forall (λ c, c ≠ 47%N ∧ c ≠ 46%N) ext →
  get_project h view = Some stem.
Proof.
  intros Hos Hw Hfile Hdir Hstem Hdots Hext.
  assert (Hext_sep : Forall (λ c, c ≠ Posixpath.sep) ext)
    by (eapply Forall_impl; [exact Hext |]; simpl; tauto).
  assert (Hext_dot : Forall (λ c, c ≠ Posixpath.extsep) ext)
    by (eapply Forall_impl; [exact Hext |]; simpl; tauto).
  assert (Hname_sep : Forall (λ c, c ≠ Posixpath.sep)
                        (stem ++ Posixpath.extsep :: ext)).
  { apply Forall_app. split; [done |]. by constructor. }
  assert (Hbase : Posixpath.basename (dir ++ stem ++ lit "." ++ ext)
                  = stem ++ Posixpath.extsep :: ext).
  { destruct Hdir as [-> | Hlast].
    - by apply posix_basename_absent.
    - apply last_Some in Hlast as [d ->].
      rewrite <- app_assoc. by apply posix_basename_last. }
  assert (Hsplit : (Posixpath.splitext (stem ++ Posixpath.extsep :: ext)).1
                   = stem).
  { unfold Posixpath.splitext, generic_splitext, rfind.
    rewrite (rfind_go_absent Posixpath.sep) by done.
    rewrite rfind_go_last by done.
    assert ((-1 <? 0 + Z.of_nat (length stem))%Z = true) as ->
      by (apply Z.ltb_lt; lia).
    unfold upto, from.
    replace (Z.to_nat (0 + Z.of_nat (length stem) - (-1 + 1)))
      with (length stem) by lia.
    replace (Z.to_nat (0 + Z.of_nat (length stem))) with (length stem) by lia.
    change (Z.to_nat (-1 + 1)) with 0. rewrite drop_0, !take_app_length.
    assert (existsb (λ c, negb (N.eqb c Posixpath.extsep)) stem = true) as ->.
    { apply existsb_exists. apply Exists_exists in Hdots as (c & Hc & Hne).
      exists c. split; [by apply list_elem_of_In |].
      by destruct (N.eqb_spec c Posixpath.extsep). }
    done. }
  unfold get_project. rewrite Hw, Hfile, Hos.
  change (path_basename (Posixpath.module cwd)) with Posixpath.basename.
  change (path_splitext (Posixpath.module cwd)) with Posixpath.splitext.
  assert (Hne : nonempty (dir ++ stem ++ lit "." ++ ext) = true).
  { destruct dir; [| done]. destruct stem; [| done].
    by apply Exists_nil in Hdots. }
  cbv zeta. rewrite Hne. cbv iota. rewrite Hne. cbv iota.
  by rewrite Hbase, Hsplit.
Qed.

Lemma posix_project_name_is_stem_witness :
  get_project
    (Examples.linux_host None (Examples.shipped "{path}" PNone))
    {| view_id := 1; name := []; file_name := None; is_dirty := false;
       window := Some {| window_id := 1;
                         project_file_name :=
                           Some (lit "/home/u/" ++ lit "site.v2"
                                 ++ lit "." ++ lit "sublime-project");
                         folders := [lit "/srv/www"] |} |}
  = Some (lit "site.v2").
Proof.
  eapply (posix_project_name_is_stem_of_project_file _ (lit "/") _ _
            (lit "/home/u/") (lit "site.v2") (lit "sublime-project"));
    try reflexivity.
  - by right.
  - change (lit "site.v2") with [115; 105; 116; 101; 46; 118; 50]%N.
    repeat constructor; discriminate.
  - apply Exists_cons_hd. discriminate.
  - change (lit "sublime-project")
      with [115; 117; 98; 108; 105; 109; 101; 45; 112; 114; 111; 106; 101;
            99; 116]%N.
    repeat constructor; discriminate.
Defined.

(** ** Filling in the template *)

Lemma replace_go_skip (old new x rest : str) :
  replace_go old new (length x) (x ++ rest) = replace_go old new 0 rest.
Proof. induction x as [| c x IH]; [reflexivity | exact IH]. Qed.

Lemma startswith_app (p rest : str) : startswith (p ++ rest) p = true.
Proof.
  induction p as [| c p IH]; [by destruct rest |].
  simpl. by rewrite N.eqb_refl.
Qed.

(** Replacing a token that stands after text without ["{"]. *)
Lemma replace_token (cond new a b : str) :
  Forall (λ c, c ≠ Format.lbrace) a →
  replace (a ++ lit "{" ++ cond ++ lit "}" ++ b)
    (lit "{" ++ cond ++ lit "}") new
  = a ++ new ++ replace b (lit "{" ++ cond ++ lit "}") new.
Proof.
  intros Ha. change (lit "{" ++ ?x) with (Format.lbrace :: x).
  unfold replace. rewrite replace_go_no_lbrace by done. f_equal.
  set (old' := cond ++ lit "}").
  replace (Format.lbrace :: cond ++ lit "}" ++ b)
    with ((Format.lbrace :: old') ++ b)
    by (subst old'; by rewrite <- app_comm_cons, <- app_assoc).
  cbn [replace_go app].
  change (Format.lbrace :: old' ++ b) with ((Format.lbrace :: old') ++ b).
  rewrite (startswith_app (Format.lbrace :: old') b).
  cbn [length]. by rewrite Nat.sub_succ, Nat.sub_0_r, replace_go_skip.
Qed.

Lemma format_known_keyword (tail : Format.kwargs → str → result str)
    (kw : Format.kwargs) (a key b : str) (v : val) :
  Spec.brace_free a →
  Spec.brace_free b →
  Spec.keyword key →
  Format.lookup kw key = Some v →
  Format.format tail kw (a ++ lit "{" ++ key ++ lit "}" ++ b)
  = Ok (a ++ to_str v ++ b).
Proof.
  intros Ha Hb Hkey Hv. unfold Format.format.
  rewrite format_go_text by done.
  change (lit "{" ++ ?x) with (Format.lbrace :: x).
  change (lit "}") with [Format.rbrace].
  simpl app. rewrite format_go_open by done.
  destruct Hkey as (Hne & _ & Hdigits).
  unfold Format.field. destruct key; [done |]. rewrite Hdigits, Hv.
  pose proof (format_brace_free tail kw b Hb) as Hfb.
  unfold Format.format in Hfb. by rewrite Hfb.
Qed.

(** X16: when the displayed path and the two condition texts are there, a
    template that holds one field, ["{path}"] or ["{project}"], between
    texts without braces is rendered with the field replaced by [str()] of
    its value: the displayed path, or the project name, which is the text
    ["None"] for a view without a window. *)
Theorem recognized_field_is_filled_in
    (h : host) (view : sublime_view) (project : option str) (old_title : str)
    (path : val) (has_project_text is_dirty_text a b : str) :
  _get_displayed_path h view = Ok path →
  settings_get h
    (lit "has_project"
     ++ (if truth (opt_val project) then lit "_true" else lit "_false"))
    PNone = PStr has_project_text →
  settings_get h
    (lit "is_dirty"
     ++ (if truth (PBool (is_dirty view)) then lit "_true" else lit "_false"))
    PNone = PStr is_dirty_text →
  Spec.brace_free a →
  Spec.brace_free b →
  (settings_get h (lit "template") PNone = PStr (a ++ lit "{path}" ++ b) →
   get_new_title h view project old_title = Ok (a ++ to_str path ++ b))
  ∧ (settings_get h (lit "template") PNone = PStr (a ++ lit "{project}" ++ b) →
     get_new_title h view project old_title
     = Ok (a ++ to_str (opt_val project) ++ b)).
Proof.
  intros Hpath Hhp Hd Ha Hb.
  pose proof (brace_free_no_lbrace a Ha) as Hal.
  pose proof (brace_free_no_lbrace b Hb) as Hbl.
  assert (Hfill : ∀ key v,
    Spec.keyword key →
    Forall (λ c, c ≠ Format.lbrace ∧ c ≠ Format.rbrace) key →
    key ≠ lit "has_project" → key ≠ lit "is_dirty" →
    Format.lookup [(lit "path", path); (lit "project", opt_val project)] key
    = Some v →
    settings_get h (lit "template") PNone
    = PStr (a ++ lit "{" ++ key ++ lit "}" ++ b) →
    get_new_title h view project old_title = Ok (a ++ to_str v ++ b)).
  { intros key v Hkey Hkb Hk1 Hk2 Hv Ht.
    unfold get_new_title. rewrite Hpath, Ht. cbn [bind]. cbv zeta.
    rewrite (replace_condition_text h _ _ _ _ Hhp). cbn [bind].
    rewrite (replace_condition_text h _ _ _ _ Hd). cbn [bind].
    rewrite (replace_around_other_field (lit "has_project"));
      [| by repeat constructor | done | done].
    change (lit "{" ++ lit "has_project" ++ lit "}")
      with (Format.lbrace :: lit "has_project}").
    rewrite !replace_no_lbrace by done.
    rewrite (replace_around_other_field (lit "is_dirty"));
      [| by repeat constructor | done | done].
    change (lit "{" ++ lit "is_dirty" ++ lit "}")
      with (Format.lbrace :: lit "is_dirty}").
    rewrite !replace_no_lbrace by done.
    by apply format_known_keyword. }
  split; intros Ht.
  - apply (Hfill (lit "path")); try done.
    + split; [done | split; [| done]]. by repeat constructor.
    + by repeat constructor.
  - apply (Hfill (lit "project")); try done.
    + split; [done | split; [| done]]. by repeat constructor.
    + by repeat constructor.
Qed.

Lemma recognized_field_witness :
  let h := Examples.linux_host None
             (Examples.shipped "[{project}] Editor" (PStr (lit "full"))) in
  get_new_title h (Examples.file_view "/a.py" false None) None []
  = Ok (lit "[" ++ lit "None" ++ lit "] Editor").
Proof.
  intros h.
  apply (proj2 (recognized_field_is_filled_in h
                  (Examples.file_view "/a.py" false None) None []
                  (PStr (lit "/a.py")) [] [] (lit "[") (lit "] Editor")
                  eq_refl eq_refl eq_refl
                  ltac:(repeat constructor; discriminate)
                  ltac:(change (lit "] Editor")
                          with [93; 32; 69; 100; 105; 116; 111; 114]%N;
                        repeat constructor; discriminate))).
  reflexivity.
Defined.

(** X17: when the displayed path and the two condition texts are there, a
    template that holds one condition token between texts without braces
    is rendered with the token replaced by the text configured for the
    truth value of the condition, if that text has no braces. *)
Theorem condition_token_is_replaced_by_its_text
    (h : host) (view : sublime_view) (project : option str) (old_title : str)
    (path : val) (has_project_text is_dirty_text a b : str) :
  _get_displayed_path h view = Ok path →
  settings_get h
    (lit "has_project"
     ++ (if truth (opt_val project) then lit "_true" else lit "_false"))
    PNone = PStr has_project_text →
  settings_get h
    (lit "is_dirty"
     ++ (if truth (PBool (is_dirty view)) then lit "_true" else lit "_false"))
    PNone = PStr is_dirty_text →
  Spec.brace_free a →
  Spec.brace_free b →
  (settings_get h (lit "template") PNone
   = PStr (a ++ lit "{has_project}" ++ b) →
   Spec.brace_free has_project_text →
   get_new_title h view project old_title = Ok (a ++ has_project_text ++ b))
  ∧ (settings_get h (lit "template") PNone
     = PStr (a ++ lit "{is_dirty}" ++ b) →
     Spec.brace_free is_dirty_text →
     get_new_title h view project old_title = Ok (a ++ is_dirty_text ++ b)).
Proof.
  intros Hpath Hhp Hd Ha Hb.
  pose proof (brace_free_no_lbrace a Ha) as Hal.
  pose proof (brace_free_no_lbrace b Hb) as Hbl.
  split; intros Ht Htext; unfold get_new_title; rewrite Hpath, Ht;
    cbn [bind]; cbv zeta;
    rewrite (replace_condition_text h _ _ _ _ Hhp); cbn [bind];
    rewrite (replace_condition_text h _ _ _ _ Hd); cbn [bind].
  - rewrite (replace_token (lit "has_project") _ a b Hal).
    change (lit "{" ++ ?x) with (Format.lbrace :: x).
    rewrite (replace_no_lbrace _ _ b) by done.
    assert (Hall : Spec.brace_free (a ++ has_project_text ++ b))
      by (repeat (apply Forall_app; split); done).
    rewrite replace_no_lbrace by by apply brace_free_no_lbrace.
    by apply format_brace_free.
  - rewrite (replace_around_other_field (lit "has_project") _ a
               (lit "is_dirty") b);
      [| by repeat constructor | by repeat constructor | done].
    change (lit "{" ++ lit "has_project" ++ lit "}")
      with (Format.lbrace :: lit "has_project}").
    rewrite !replace_no_lbrace by done.
    rewrite (replace_token (lit "is_dirty") _ a b Hal).
    change (lit "{" ++ ?x) with (Format.lbrace :: x).
    rewrite (replace_no_lbrace _ _ b) by done.
    apply format_brace_free.
    repeat (apply Forall_app; split); done.
Qed.

Lemma condition_token_witness :
  let h := Examples.linux_host None
             (Examples.shipped "Editor{is_dirty}" (PStr (lit "full"))) in
  get_new_title h (Examples.file_view "/a.py" true None) None []
  = Ok (lit "Editor" ++ lit "*" ++ []).
Proof.
  intros h.
  apply (proj2 (condition_token_is_replaced_by_its_text h
                  (Examples.file_view "/a.py" true None) None []
                  (PStr (lit "/a.py")) [] (lit "*") (lit "Editor") []
                  eq_refl eq_refl eq_refl
                  ltac:(change (lit "Editor")
                          with [69; 100; 105; 116; 111; 114]%N;
                        repeat constructor; discriminate)
                  ltac:(constructor))).
  - reflexivity.
  - repeat constructor; discriminate.
Defined.

(** ** The helper script on Linux *)

Lemma commands_emit (e : effect) (st : state) :
  Spec.commands (emit e st)
  = Spec.commands st
    ++ match e with Popen cmd => [cmd] | _ => [] end.
Proof.
  unfold Spec.commands. simpl. rewrite omap_app. by destruct e.
Qed.

(** X19: on Linux, a [run] of a ready listener whose new title renders
    passes exactly one command to [os.popen], namely
    [bash <script> "<official title>" "<new title>" 1&2] with both titles
    put between double quotes as they are, whether or not debugging is
    on. *)
Theorem linux_run_starts_the_helper_once
    (h : host) (view : sublime_view) (st : state) (new_title : str) :
  PLATFORM h = linux →
  ready st = true →
  get_new_title h view (get_project h view)
    (get_official_title h view (get_project h view)) = Ok new_title →
  Spec.commands (run h (Some view) st).2
  = Spec.commands st
    ++ [Spec.helper_command (script_path st)
          (get_official_title h view (get_project h view)) new_title].
Proof.
  intros Hp Hr Hnew. unfold run. rewrite Hr, Hnew. simpl negb. cbv iota.
  unfold rename_window. rewrite Hp.
  destruct (truth (settings_get h (lit "debug") PNone));
    cbn [snd];
    match goal with
    | |- Spec.commands (set_was_dirty _ _ ?s) = _ =>
        change (Spec.commands s
                = Spec.commands st
                  ++ [Spec.helper_command (script_path st)
                        (get_official_title h view (get_project h view))
                        new_title])
    end;
    rewrite !commands_emit, ?app_nil_r; f_equal;
    unfold Spec.helper_command, quote; cbn [script_path emit];
    by rewrite <- !app_assoc.
Qed.

Lemma linux_run_witness :
  let h := Examples.linux_host None
             (Examples.shipped "{path}" (PStr (lit "full"))) in
  let st := set_ready (Some (lit "/fix.sh")) (init ∅ []) in
  Spec.commands (run h (Some (Examples.file_view "/a.py" false None)) st).2
  = [lit "bash /fix.sh " ++ [34%N] ++ lit "a.py - Sublime Text" ++ [34%N]
     ++ lit " " ++ [34%N] ++ lit "/a.py" ++ [34%N] ++ lit " 1&2"].
Proof.
  intros h st.
  apply (linux_run_starts_the_helper_once h
           (Examples.file_view "/a.py" false None) st (lit "/a.py"));
    reflexivity.
Defined.

Lemma run_script_path (h : host) view st :
  ready st = true → script_path (run h view st).2 = script_path st.
Proof.
  intros Hr. unfold run. rewrite Hr. simpl.
  destruct view as [view |]; [| done].
  destruct (get_new_title _ _ _ _) as [new_title |]; [| done].
  assert (Hs : script_path
                 (rename_window h (window view)
                    (get_official_title h view (get_project h view))
                    new_title st).2 = script_path st).
  { unfold rename_window. destruct (PLATFORM h); simpl.
    - by repeat case_match.
    - destruct (window view) as [w |]; [| done].
      destruct (_ !! _).
      + by destruct (Window.set_title _ _ _).
      + match goal with
        | |- context [rename_each ?a ?b ?c ?d] =>
            by destruct (rename_each_frame a b c d) as (_ & -> & _)
        end.
    - done. }
  destruct (rename_window _ _ _ _ _) as [[] st']; simpl in *; done.
Qed.

Lemma run_each_script_path (h : host) views st :
  ready st = true → script_path (run_each h views st).2 = script_path st.
Proof.
  revert st. induction views as [| v views IH]; intros st Hr; simpl; [done |].
  pose proof (run_script_path h v st Hr) as Hs.
  pose proof (run_ready h v st Hr) as Hr'.
  destruct (run h v st) as [[] st']; simpl in *; [| done].
  by rewrite IH.
Qed.

(** X20: on Linux with POSIX paths, the start-up call that gets the packages
    path [P] (not ending in ["/"]) leaves the script path
    [P/<package>/fix_window_title.sh], for a package name that neither
    starts nor ends with ["/"]. *)
Theorem started_sets_script_path
    (h : host) (cwd : str) (st : state) (empties : list str)
    (packages_path : str) (rest : list str)
    (active_views : list (option sublime_view)) :
  PLATFORM h = linux →
  os_path h = Posixpath.module cwd →
  Forall (λ x, x = []) empties →
  packages_path ≠ [] →
  last packages_path ≠ Some 47%N →
  package h ≠ [] →
  head (package h) ≠ Some 47%N →
  last (package h) ≠ Some 47%N →
  script_path
    (handle h st (Started (empties ++ packages_path :: rest) active_views))
  = Some (packages_path ++ lit "/" ++ package h
          ++ lit "/fix_window_title.sh").
Proof.
  intros Hp Hos Hempty Hne Hlast Hpkg Hhead Hpkglast.
  simpl. unfold on_sublime_started.
  rewrite polling_sleeps_once_per_empty_answer by done.
  match goal with
  | |- context [run_each h active_views ?s] =>
      pose proof (run_each_script_path h active_views s eq_refl) as Hs;
      destruct (run_each h active_views s) as [r st2]
  end.
  simpl in Hs. rewrite Hs, Hp, Hos. simpl path_join. f_equal.
  unfold Posixpath.join. simpl foldl.
  assert (Hstep1 : Posixpath.join_step packages_path (package h)
                   = packages_path ++ Posixpath.sep :: package h).
  { unfold Posixpath.join_step.
    assert (startswith (package h) [Posixpath.sep] = false) as ->.
    { destruct (package h) as [| c pk]; [done |]. simpl in *.
      destruct (N.eqb_spec c Posixpath.sep) as [-> | _]; [done |].
      by destruct pk. }
    assert (nonempty packages_path = true) as -> by by destruct packages_path.
    unfold endswith_char. destruct (last packages_path) as [x |]; [| done].
    destruct (N.eqb_spec x Posixpath.sep) as [-> | _]; done. }
  rewrite Hstep1. unfold Posixpath.join_step.
  change (startswith (lit "fix_window_title.sh") [Posixpath.sep]) with false.
  cbv iota.
  assert (nonempty (packages_path ++ Posixpath.sep :: package h) = true) as ->
    by by destruct packages_path.
  unfold endswith_char.
  rewrite (cons_middle _ packages_path), app_assoc, last_app.
  destruct (last (package h)) as [x |] eqn:Hx.
  - destruct (N.eqb_spec x Posixpath.sep) as [-> | _]; [done |].
    simpl. by rewrite <- !app_assoc.
  - by apply last_None in Hx.
Qed.

Lemma started_sets_script_path_witness :
  script_path
    (handle
       (Examples.linux_host None (Examples.shipped "{path}" (PStr (lit "full"))))
       (init ∅ [])
       (Started ([[]] ++ lit "/opt/st/Packages" :: []) []))
  = Some (lit "/opt/st/Packages" ++ lit "/" ++ lit "SetWindowTitle"
          ++ lit "/fix_window_title.sh").
Proof.
  apply (started_sets_script_path
           (Examples.linux_host None
              (Examples.shipped "{path}" (PStr (lit "full"))))
           (lit "/") (init ∅ []) [[]] (lit "/opt/st/Packages") [] []);
    try reflexivity; try discriminate.
  repeat constructor.
Defined.

(** X21: the start-up loop stops at the first window without an active
    view: [run(None)] raises [AttributeError] in a ready listener, and the
    windows after it are not handled. *)
Theorem start_up_loop_stops_at_missing_view
    (h : host) (st st1 : state)
    (before after : list (option sublime_view)) :
  ready st = true →
  run_each h before st = (Ok tt, st1) →
  run_each h (before ++ None :: after) st = (Raise AttributeError, st1).
Proof.
  revert st. induction before as [| v before IH]; intros st Hr; simpl.
  - intros [= <-]. unfold run. by rewrite Hr.
  - pose proof (run_ready h v st Hr) as Hr'.
    destruct (run h v st) as [[[] | e] st']; simpl in *; [| done].
    by apply IH.
Qed.

Lemma start_up_loop_witness :
  let h := Examples.linux_host None
             (Examples.shipped "{path}" (PStr (lit "full"))) in
  let st := set_ready (Some (lit "/fix.sh")) (init ∅ []) in
  let view := Examples.file_view "/a.py" false None in
  run_each h ([] ++ None :: [Some view]) st = (Raise AttributeError, st).
Proof.
  intros h st view.
  apply (start_up_loop_stops_at_missing_view h st st [] [Some view]);
    reflexivity.
Defined.

(** ** Missing settings *)

Lemma replace_condition_no_text (h : host) (t cond : str) (value : val) :
  (∀ r, settings_get h
          (cond ++ (if truth value then lit "_true" else lit "_false"))
          PNone ≠ PStr r) →
  _replace_condition h (PStr t) cond value = Raise TypeError.
Proof.
  intros Hr. unfold _replace_condition.
  destruct (truth value);
    match goal with
    | |- context [settings_get h ?k PNone] =>
        destruct (settings_get h k PNone) eqn:Hk
    end; try done; by destruct (Hr s).
Qed.

(** X18: once the displayed path is there, a settings file whose template
    is missing (or not a string) makes the rendering raise
    [AttributeError], and one where the text of a condition, for the truth
    value at hand, is missing (or not a string) makes it raise [TypeError],
    whether or not the template holds the token. *)
Theorem missing_setting_stops_rendering
    (h : host) (view : sublime_view) (project : option str) (old_title : str)
    (path : val) :
  _get_displayed_path h view = Ok path →
  ((∀ t, settings_get h (lit "template") PNone ≠ PStr t) →
   get_new_title h view project old_title = Raise AttributeError)
  ∧ (∀ t,
       settings_get h (lit "template") PNone = PStr t →
       (∀ r, settings_get h
               (lit "has_project"
                ++ (if truth (opt_val project)
                    then lit "_true" else lit "_false"))
               PNone ≠ PStr r) →
       get_new_title h view project old_title = Raise TypeError)
  ∧ (∀ t text,
       settings_get h (lit "template") PNone = PStr t →
       settings_get h
         (lit "has_project"
          ++ (if truth (opt_val project) then lit "_true" else lit "_false"))
         PNone = PStr text →
       (∀ r, settings_get h
               (lit "is_dirty"
                ++ (if truth (PBool (is_dirty view))
                    then lit "_true" else lit "_false"))
               PNone ≠ PStr r) →
       get_new_title h view project old_title = Raise TypeError).
Proof.
  intros Hpath. unfold get_new_title. rewrite Hpath. cbn [bind]. cbv zeta.
  split_and!.
  - intros Hno. unfold _replace_condition at 1.
    destruct (settings_get h (lit "template") PNone) as [| b | t];
      [done | done | by destruct (Hno t)].
  - intros t -> Hno. by rewrite replace_condition_no_text.
  - intros t text -> Hhp Hno.
    rewrite (replace_condition_text h _ _ _ _ Hhp). cbn [bind].
    by rewrite replace_condition_no_text.
Qed.

Lemma missing_setting_witness :
  get_new_title
    (Examples.linux_host None
       (Examples.settings_of [("path_display", PStr (lit "full"))]))
    (Examples.file_view "/a.py" false None) None []
  = Raise AttributeError.
Proof.
  apply (proj1 (missing_setting_stops_rendering
                  (Examples.linux_host None
                     (Examples.settings_of [("path_display", PStr (lit "full"))]))
                  (Examples.file_view "/a.py" false None) None []
                  (PStr (lit "/a.py")) eq_refl)).
  intros t. discriminate.
Defined.
